(** * VoiceAssistant: the session logic of [src/app/page.tsx]

    A shallow embedding of the React component [VoiceAssistant]: its state
    variables, its refs, the browser objects it drives (speech recognition,
    speech synthesis, [fetch], [setTimeout]) and every callback it defines.

    Conventions of the embedding:
    - a JavaScript string is the list of its UTF-16 code units;
    - a callback created by [useCallback] reads the values of the render it
      was created in; those values are the record [Closure], and the
      callback is a function of the closure and of the current [State]
      (state setters, refs and browser objects act on the [State]);
    - an [await] splits a callback in two: the part before it runs when the
      callback is called, the part after it runs when the awaited promise
      settles, still with the closure of the call;
    - the clock, whether read by [Date.now()] or by [new Date()], gives
      the argument [now] of the event being handled.

    Left out, because nothing reads them back: [utteranceRef],
    [chatContainerRef] and its scrolling effect, the console output, the
    [confidence] of a transcript, and the markup itself except for which
    controls each mode renders. *)

From Stdlib Require Import List NArith Bool String Ascii Lia.
From Stdlib Require Decimal DecimalN.
Import ListNotations.
Local Open Scope N_scope.

(** ** JavaScript strings *)

Module Js.

Definition jsstring := list N.

(** Code units of an ASCII literal. *)
Fixpoint lit (s : string) : jsstring :=
  match s with
  | EmptyString => []
  | String c r => N_of_ascii c :: lit r
  end.

(** ECMAScript [WhiteSpace] and [LineTerminator] code points, the ones
    [String.prototype.trim] strips. *)
Definition isWhiteSpace (c : N) : bool :=
  (c =? 9) || (c =? 10) || (c =? 11) || (c =? 12) || (c =? 13) || (c =? 32)
  || (c =? 160) || (c =? 5760) || ((8192 <=? c) && (c <=? 8202))
  || (c =? 8232) || (c =? 8233) || (c =? 8239) || (c =? 8287)
  || (c =? 12288) || (c =? 65279).

Fixpoint trimStart (s : jsstring) : jsstring :=
  match s with
  | [] => []
  | c :: r => if isWhiteSpace c then trimStart r else s
  end.

Definition trimEnd (s : jsstring) : jsstring := rev (trimStart (rev s)).

Definition trim (s : jsstring) : jsstring := trimEnd (trimStart s).

(** Truthiness of a string: the empty string is the only falsy one. *)
Definition truthy (s : jsstring) : bool :=
  match s with [] => false | _ :: _ => true end.

(** [a || b] on strings where [a] may be absent ([undefined]). *)
Definition orElse (a : option jsstring) (b : jsstring) : jsstring :=
  match a with
  | Some s => if truthy s then s else b
  | None => b
  end.

(** Decimal rendering of a non-negative integer, as a template literal
    prints it. *)
Fixpoint digits (d : Decimal.uint) : jsstring :=
  match d with
  | Decimal.Nil => []
  | Decimal.D0 r => 48 :: digits r
  | Decimal.D1 r => 49 :: digits r
  | Decimal.D2 r => 50 :: digits r
  | Decimal.D3 r => 51 :: digits r
  | Decimal.D4 r => 52 :: digits r
  | Decimal.D5 r => 53 :: digits r
  | Decimal.D6 r => 54 :: digits r
  | Decimal.D7 r => 55 :: digits r
  | Decimal.D8 r => 56 :: digits r
  | Decimal.D9 r => 57 :: digits r
  end.

Definition decimal (n : N) : jsstring := digits (N.to_uint n).

Definition eqb (a b : jsstring) : bool :=
  if list_eq_dec N.eq_dec a b then true else false.

(** High and low surrogate code units. *)
Definition isHighSurrogate (c : N) : bool := (55296 <=? c) && (c <=? 56319).
Definition isLowSurrogate (c : N) : bool := (56320 <=? c) && (c <=? 57343).

(** No lone surrogate: every high surrogate is followed by a low one and
    every low surrogate follows a high one. [encodeURIComponent] throws a
    [URIError] exactly on the strings that are not well formed. *)
Fixpoint isWellFormed (s : jsstring) : bool :=
  match s with
  | [] => true
  | c :: r =>
      if isHighSurrogate c then
        match r with
        | d :: r' => isLowSurrogate d && isWellFormed r'
        | [] => false
        end
      else if isLowSurrogate c then false
      else isWellFormed r
  end.

End Js.

Import Js.

(** ** Data model (lines 10-18) *)

Inductive Sender := user | bot.

Inductive MessageType := text_t | status_t | error_t.

Record Message := mkMessage {
  id : jsstring;
  text : jsstring;
  sender : Sender;
  timestamp : N;
  type : MessageType
}.

Inductive ChatMode := chat | voice | voice_cont.

Definition MessageType_eqb (a b : MessageType) : bool :=
  match a, b with
  | text_t, text_t | status_t, status_t | error_t, error_t => true
  | _, _ => false
  end.

Definition ChatMode_eqb (a b : ChatMode) : bool :=
  match a, b with
  | chat, chat | voice, voice | voice_cont, voice_cont => true
  | _, _ => false
  end.

(** ** Closures, browser objects and the component state *)

(** The state values a callback reads from the render it was created in
    (the dependency lists of the [useCallback]s name exactly these). *)
Record Closure := mkClosure {
  c_inputText : jsstring;
  c_currentMode : ChatMode;
  c_isProcessing : bool;
  c_speechEnabled : bool;
  c_isRecording : bool;
  c_connectionOnline : bool
}.

(** The [SpeechRecognition] object of [recognitionRef]: [handlers] is the
    closure of the [startRecording] call that last assigned [onresult],
    [onerror] and [onend] ([None] while they are still [null]); [started]
    holds from a successful [start()] until the object reports its end. *)
Record Recognition := mkRecognition {
  handlers : option Closure;
  started : bool
}.

(** The global [speechSynthesis]: its [speaking] attribute and its queue of
    utterances (the text of each). *)
Record Synthesis := mkSynthesis {
  speaking : bool;
  queue : list jsstring
}.

(** A [fetch] of [/ask?question=...] that has not settled: the question,
    the instant its 15000 ms abort timer fires, and the closure of the
    [sendMessage] call that awaits it. *)
Record Request := mkRequest {
  question : jsstring;
  deadline : N;
  awaiting : Closure
}.

(** A pending [setTimeout] of [addMessage]: it removes the messages whose
    id is [target]. *)
Record Timeout := mkTimeout {
  due : N;
  target : jsstring
}.

(** Calls made on the browser objects, oldest first. *)
Inductive Call :=
| call_fetch (q : jsstring)
| call_speak (t : jsstring)
| call_cancel
| call_start
| call_stop.

Record State := mkState {
  messages : list Message;
  inputText : jsstring;
  currentMode : ChatMode;
  isProcessing : bool;
  isTyping : bool;
  speechEnabled : bool;
  isRecording : bool;
  isSpeaking : bool;
  connectionOnline : bool;
  messageCounterRef : N;
  recognitionRef : option Recognition;
  speechSynthesis : Synthesis;
  requests : list Request;
  timeouts : list Timeout;
  calls : list Call
}.

(** The values a render hands to the callbacks it creates. *)
Definition render (s : State) : Closure :=
  {| c_inputText := inputText s;
     c_currentMode := currentMode s;
     c_isProcessing := isProcessing s;
     c_speechEnabled := speechEnabled s;
     c_isRecording := isRecording s;
     c_connectionOnline := connectionOnline s |}.

(** State after the first render; [supported] tells whether the browser has
    a [SpeechRecognition] constructor (lines 67-77). *)
Definition initial (supported : bool) : State :=
  {| messages := [];
     inputText := [];
     currentMode := chat;
     isProcessing := false;
     isTyping := false;
     speechEnabled := true;
     isRecording := false;
     isSpeaking := false;
     connectionOnline := true;
     messageCounterRef := 0;
     recognitionRef :=
       if supported then Some (mkRecognition None false) else None;
     speechSynthesis := mkSynthesis false [];
     requests := [];
     timeouts := [];
     calls := [] |}.

(** ** Commands: state setters and browser calls *)

Definition Cmd := State -> State.

Definition skip : Cmd := fun s => s.

Definition seq (a b : Cmd) : Cmd := fun s => b (a s).

Declare Scope cmd_scope.
Delimit Scope cmd_scope with cmd.
Bind Scope cmd_scope with Cmd.
Notation "a ;; b" := (seq a b)
  (at level 61, left associativity) : cmd_scope.
Local Open Scope cmd_scope.

Definition when (b : bool) (a : Cmd) : Cmd := if b then a else skip.

Definition setMessages (f : list Message -> list Message) : Cmd := fun s =>
  mkState (f (messages s)) (inputText s) (currentMode s) (isProcessing s)
    (isTyping s) (speechEnabled s) (isRecording s) (isSpeaking s)
    (connectionOnline s) (messageCounterRef s) (recognitionRef s)
    (speechSynthesis s) (requests s) (timeouts s) (calls s).

Definition setInputText (v : jsstring) : Cmd := fun s =>
  mkState (messages s) v (currentMode s) (isProcessing s)
    (isTyping s) (speechEnabled s) (isRecording s) (isSpeaking s)
    (connectionOnline s) (messageCounterRef s) (recognitionRef s)
    (speechSynthesis s) (requests s) (timeouts s) (calls s).

Definition setCurrentMode (v : ChatMode) : Cmd := fun s =>
  mkState (messages s) (inputText s) v (isProcessing s)
    (isTyping s) (speechEnabled s) (isRecording s) (isSpeaking s)
    (connectionOnline s) (messageCounterRef s) (recognitionRef s)
    (speechSynthesis s) (requests s) (timeouts s) (calls s).

Definition setIsProcessing (v : bool) : Cmd := fun s =>
  mkState (messages s) (inputText s) (currentMode s) v
    (isTyping s) (speechEnabled s) (isRecording s) (isSpeaking s)
    (connectionOnline s) (messageCounterRef s) (recognitionRef s)
    (speechSynthesis s) (requests s) (timeouts s) (calls s).

Definition setIsTyping (v : bool) : Cmd := fun s =>
  mkState (messages s) (inputText s) (currentMode s) (isProcessing s)
    v (speechEnabled s) (isRecording s) (isSpeaking s)
    (connectionOnline s) (messageCounterRef s) (recognitionRef s)
    (speechSynthesis s) (requests s) (timeouts s) (calls s).

Definition setSpeechEnabled (v : bool) : Cmd := fun s =>
  mkState (messages s) (inputText s) (currentMode s) (isProcessing s)
    (isTyping s) v (isRecording s) (isSpeaking s)
    (connectionOnline s) (messageCounterRef s) (recognitionRef s)
    (speechSynthesis s) (requests s) (timeouts s) (calls s).

Definition setIsRecording (v : bool) : Cmd := fun s =>
  mkState (messages s) (inputText s) (currentMode s) (isProcessing s)
    (isTyping s) (speechEnabled s) v (isSpeaking s)
    (connectionOnline s) (messageCounterRef s) (recognitionRef s)
    (speechSynthesis s) (requests s) (timeouts s) (calls s).

Definition setIsSpeaking (v : bool) : Cmd := fun s =>
  mkState (messages s) (inputText s) (currentMode s) (isProcessing s)
    (isTyping s) (speechEnabled s) (isRecording s) v
    (connectionOnline s) (messageCounterRef s) (recognitionRef s)
    (speechSynthesis s) (requests s) (timeouts s) (calls s).

Definition setConnectionOnline (v : bool) : Cmd := fun s =>
  mkState (messages s) (inputText s) (currentMode s) (isProcessing s)
    (isTyping s) (speechEnabled s) (isRecording s) (isSpeaking s)
    v (messageCounterRef s) (recognitionRef s)
    (speechSynthesis s) (requests s) (timeouts s) (calls s).

Definition putMessageCounter (v : N) : Cmd := fun s =>
  mkState (messages s) (inputText s) (currentMode s) (isProcessing s)
    (isTyping s) (speechEnabled s) (isRecording s) (isSpeaking s)
    (connectionOnline s) v (recognitionRef s)
    (speechSynthesis s) (requests s) (timeouts s) (calls s).

Definition putRecognition (v : option Recognition) : Cmd := fun s =>
  mkState (messages s) (inputText s) (currentMode s) (isProcessing s)
    (isTyping s) (speechEnabled s) (isRecording s) (isSpeaking s)
    (connectionOnline s) (messageCounterRef s) v
    (speechSynthesis s) (requests s) (timeouts s) (calls s).

Definition putSynthesis (v : Synthesis) : Cmd := fun s =>
  mkState (messages s) (inputText s) (currentMode s) (isProcessing s)
    (isTyping s) (speechEnabled s) (isRecording s) (isSpeaking s)
    (connectionOnline s) (messageCounterRef s) (recognitionRef s)
    v (requests s) (timeouts s) (calls s).

Definition putRequests (v : list Request) : Cmd := fun s =>
  mkState (messages s) (inputText s) (currentMode s) (isProcessing s)
    (isTyping s) (speechEnabled s) (isRecording s) (isSpeaking s)
    (connectionOnline s) (messageCounterRef s) (recognitionRef s)
    (speechSynthesis s) v (timeouts s) (calls s).

Definition putTimeouts (v : list Timeout) : Cmd := fun s =>
  mkState (messages s) (inputText s) (currentMode s) (isProcessing s)
    (isTyping s) (speechEnabled s) (isRecording s) (isSpeaking s)
    (connectionOnline s) (messageCounterRef s) (recognitionRef s)
    (speechSynthesis s) (requests s) v (calls s).

Definition record (c : Call) : Cmd := fun s =>
  mkState (messages s) (inputText s) (currentMode s) (isProcessing s)
    (isTyping s) (speechEnabled s) (isRecording s) (isSpeaking s)
    (connectionOnline s) (messageCounterRef s) (recognitionRef s)
    (speechSynthesis s) (requests s) (timeouts s) (calls s ++ [c]).

(** [speechSynthesis.cancel()]: empties the queue and stops the utterance
    being spoken. *)
Definition synthesis_cancel : Cmd :=
  putSynthesis (mkSynthesis false []) ;; record call_cancel.

(** [speechSynthesis.speak(u)]: adds [u] at the end of the queue. *)
Definition synthesis_speak (t : jsstring) : Cmd := fun s =>
  (putSynthesis (mkSynthesis (speaking (speechSynthesis s))
                             (queue (speechSynthesis s) ++ [t])) ;;
   record (call_speak t)) s.

(** [if (speechSynthesis.speaking) speechSynthesis.cancel()]. *)
Definition cancel_if_speaking : Cmd := fun s =>
  when (speaking (speechSynthesis s)) synthesis_cancel s.

(** [recognitionRef.current.stop()]. *)
Definition recognition_stop : Cmd := record call_stop.

(** [fetch(url, {signal})] together with the [setTimeout] that aborts it
    after 15000 ms. *)
Definition fetch (now : N) (c : Closure) (q : jsstring) : Cmd := fun s =>
  (putRequests (requests s ++ [mkRequest q (now + 15000) c]) ;;
   record (call_fetch q)) s.

(** [setTimeout(() => setMessages(prev => prev.filter(...)), 5000)]. *)
Definition setTimeout_remove (now : N) (i : jsstring) : Cmd := fun s =>
  putTimeouts (timeouts s ++ [mkTimeout (now + 5000) i]) s.

(** ** The callbacks of the component *)

(** The cross mark U+274C followed by a space, the prefix of the failure
    messages. *)
Definition cross : jsstring := [10060; 32].

(** The template literal [`${Date.now()}-${messageCounterRef.current}`]. *)
Definition message_id (now counter : N) : jsstring :=
  decimal now ++ [45] ++ decimal counter.

(** [addMessage] (lines 98-115). *)
Definition addMessage (now : N) (text : jsstring) (sender : Sender)
    (type : MessageType) : Cmd := fun s =>
  let counter := messageCounterRef s + 1 in
  let newMessage := mkMessage (message_id now counter) text sender now type in
  (putMessageCounter counter ;;
   setMessages (fun prev => prev ++ [newMessage]) ;;
   when (MessageType_eqb type status_t)
        (setTimeout_remove now (id newMessage))) s.

(** [speak] (lines 117-138). The handlers it puts on the utterance are
    [utterance_onstart] and [utterance_onend] below. *)
Definition speak (c : Closure) (text : jsstring) : Cmd :=
  if negb (c_speechEnabled c) || negb (truthy text) then skip
  else cancel_if_speaking ;; synthesis_speak text.

(** [sendMessage] up to its first [await] (lines 140-159). Building the
    URL is inside the [try]: when [encodeURIComponent(text)] throws (the
    text has a lone surrogate) no [fetch] is made and the [catch] block and
    line 190 run in the same turn; the error is not an [AbortError], and
    [navigatorOnLine] is [navigator.onLine] at that moment. The abort timer
    set at line 155 is then left without a request to abort. *)
Definition sendMessage (c : Closure) (now : N) (navigatorOnLine : bool)
    (text : jsstring) : Cmd :=
  if negb (truthy (trim text)) || c_isProcessing c then skip
  else if negb (c_connectionOnline c) then
    addMessage now
      (cross ++ lit "No internet connection. Please check your network and try again.")
      bot error_t
  else
    setIsProcessing true ;;
    addMessage now text user text_t ;;
    setIsTyping true ;;
    if isWellFormed text then fetch now c text
    else
      setIsTyping false ;;
      addMessage now
        (cross ++
         (if negb navigatorOnLine
          then lit "You appear to be offline. Please check your internet connection."
          else lit "I'm having trouble connecting right now. "))
        bot error_t ;;
      setIsProcessing false.

(** What the awaited [fetch] and [response.json()] come to: a parsed body
    of a response whose [ok] holds, with its [answer] field when it is a
    string, or a thrown error. An error is the [AbortError] of the timer,
    or anything else (the [Error] thrown for a response that is not [ok],
    a network failure, a body that is not JSON). *)
Inductive Thrown := AbortError | OtherError.

Inductive Outcome :=
| answered (answer : option jsstring)
| threw (e : Thrown).

(** [sendMessage] after its [await]s (lines 161-190); [navigatorOnLine] is
    [navigator.onLine] when the [catch] block runs. *)
Definition sendMessage_resume (c : Closure) (now : N) (o : Outcome)
    (navigatorOnLine : bool) : Cmd :=
  match o with
  | answered answer =>
      let answerText := orElse answer (lit "I didn't receive a proper response.") in
      setIsTyping false ;;
      addMessage now answerText bot text_t ;;
      when (c_speechEnabled c) (speak c answerText)
  | threw e =>
      let errorMessage :=
        match e with
        | AbortError => lit "Request timed out. Please try again."
        | OtherError =>
            if negb navigatorOnLine
            then lit "You appear to be offline. Please check your internet connection."
            else lit "I'm having trouble connecting right now. "
        end in
      setIsTyping false ;;
      addMessage now (cross ++ errorMessage) bot error_t
  end ;;
  setIsProcessing false.

(** [handleSendText] (lines 195-200). *)
Definition handleSendText (c : Closure) (now : N) (navigatorOnLine : bool)
    : Cmd :=
  if truthy (trim (c_inputText c)) then
    sendMessage c now navigatorOnLine (trim (c_inputText c)) ;;
    setInputText []
  else skip.

(** The [onresult] handler assigned by [startRecording] (lines 222-234). *)
Definition onresult (c : Closure) (now : N) (navigatorOnLine : bool)
    (transcript : jsstring) : Cmd :=
  (if ChatMode_eqb (c_currentMode c) chat then
     setInputText transcript
   else
     addMessage now transcript user text_t ;;
     sendMessage c now navigatorOnLine transcript) ;;
  setIsRecording false.

(** The [onerror] handler (lines 236-256); [error] is [event.error]. *)
Definition onerror (now : N) (error : jsstring) : Cmd :=
  let errorMessage :=
    lit "Voice recognition error. " ++
    (if Js.eqb error (lit "no-speech") then
       lit "No speech detected. Please try again."
     else if Js.eqb error (lit "not-allowed") then
       lit "Microphone access denied. Please allow microphone access."
     else if Js.eqb error (lit "network") then
       lit "Network error. Check your internet connection."
     else lit "Please try again.") in
  setIsRecording false ;;
  addMessage now errorMessage bot error_t.

(** The [onend] handler (lines 258-260). *)
Definition onend : Cmd := setIsRecording false.

(** [startRecording] (lines 202-269). [start()] throws when the object is
    already started, which the [catch] block reports. *)
Definition startRecording (c : Closure) (now : N) : Cmd := fun s =>
  match recognitionRef s with
  | None =>
      addMessage now (lit "Voice recognition not supported in this browser")
        bot error_t s
  | Some r =>
      if c_isRecording c then s
      else
        (cancel_if_speaking ;;
         setIsRecording true ;;
         putRecognition (Some (mkRecognition (Some c) (started r))) ;;
         if started r then
           setIsRecording false ;;
           addMessage now
             (lit "Failed to start voice recognition. Please try again.")
             bot error_t
         else
           putRecognition (Some (mkRecognition (Some c) true)) ;;
           record call_start) s
  end.

(** [recognitionRef.current && isRecording] then [stop()], the test shared
    by [stopRecording] and [stopAll]. *)
Definition stop_if_recording (c : Closure) : Cmd := fun s =>
  match recognitionRef s with
  | Some _ => when (c_isRecording c) recognition_stop s
  | None => s
  end.

(** [stopRecording] (lines 271-276). *)
Definition stopRecording (c : Closure) : Cmd :=
  stop_if_recording c ;; setIsRecording false.

(** [toggleRecording] (lines 278-284). *)
Definition toggleRecording (c : Closure) (now : N) : Cmd :=
  if c_isRecording c then stopRecording c else startRecording c now.

(** [toggleSpeaker] (lines 286-294). *)
Definition toggleSpeaker : Cmd := fun s =>
  let newValue := negb (speechEnabled s) in
  (when (negb newValue) cancel_if_speaking ;; setSpeechEnabled newValue) s.

(** [stopAll] (lines 296-307). *)
Definition stopAll (c : Closure) : Cmd :=
  stop_if_recording c ;;
  cancel_if_speaking ;;
  setIsRecording false ;;
  setIsSpeaking false ;;
  setIsProcessing false ;;
  setIsTyping false.

(** [switchMode] (lines 309-315). *)
Definition switchMode (c : Closure) (mode : ChatMode) : Cmd :=
  stopAll c ;; setCurrentMode mode.

(** [utterance.onstart], and [utterance.onend] / [utterance.onerror]
    (lines 130-132). *)
Definition utterance_onstart : Cmd := setIsSpeaking true.
Definition utterance_onend : Cmd := setIsSpeaking false.

(** ** Events *)

(** What the event loop delivers: the user's gestures on the controls the
    component renders (lines 349-535) and on the keyboard (lines 317-347),
    and the callbacks of the browser objects. The two events that can reach
    [sendMessage] carry the value of [navigator.onLine] at that turn. *)
Inductive Event :=
| ev_change (value : jsstring)   (* typing in the input *)
| ev_submit (navigatorOnLine : bool)
                                 (* Send button, Enter in the input *)
| ev_mic                         (* microphone button *)
| ev_ctrl_m
| ev_space
| ev_speaker                     (* speaker button, Ctrl+S *)
| ev_stop                        (* stop button, Escape *)
| ev_mode (mode : ChatMode)      (* mode tabs, Ctrl+1, Ctrl+2, Ctrl+3 *)
| ev_online
| ev_offline
| ev_result (transcript : jsstring) (navigatorOnLine : bool)
| ev_error (error : jsstring)
| ev_end
| ev_utterance_start
| ev_utterance_end               (* the utterance ends or fails *)
| ev_settled (i : nat) (o : Outcome) (navigatorOnLine : bool)
| ev_timeout (k : nat).

Fixpoint remove_at {A : Type} (n : nat) (l : list A) : list A :=
  match n, l with
  | _, [] => []
  | O, _ :: r => r
  | S n', x :: r => x :: remove_at n' r
  end.

(** The timer callback of [addMessage] (line 112). *)
Definition remove_message (i : jsstring) : Cmd :=
  setMessages (filter (fun msg => negb (Js.eqb (id msg) i))).

(** One turn of the event loop at time [now]. User events run the callbacks
    of the current render; an event that cannot occur in the state (a
    control that is not rendered, a browser object that is idle, a timer
    that is not due) leaves it unchanged. *)
Definition handle (now : N) (e : Event) : Cmd := fun s =>
  let c := render s in
  match e with
  | ev_change value =>
      when (ChatMode_eqb (currentMode s) chat) (setInputText value) s
  | ev_submit navigatorOnLine =>
      when (ChatMode_eqb (currentMode s) chat)
           (handleSendText c now navigatorOnLine) s
  | ev_mic =>
      when (negb (ChatMode_eqb (currentMode s) voice_cont))
           (toggleRecording c now) s
  | ev_ctrl_m =>
      when (ChatMode_eqb (currentMode s) chat) (toggleRecording c now) s
  | ev_space =>
      when (ChatMode_eqb (currentMode s) voice) (startRecording c now) s
  | ev_speaker => toggleSpeaker s
  | ev_stop => stopAll c s
  | ev_mode mode => switchMode c mode s
  | ev_online => setConnectionOnline true s
  | ev_offline => setConnectionOnline false s
  | ev_result transcript navigatorOnLine =>
      match recognitionRef s with
      | Some (mkRecognition (Some h) true) =>
          onresult h now navigatorOnLine transcript s
      | _ => s
      end
  | ev_error error =>
      match recognitionRef s with
      | Some (mkRecognition (Some h) true) => onerror now error s
      | _ => s
      end
  | ev_end =>
      match recognitionRef s with
      | Some (mkRecognition h true) =>
          (putRecognition (Some (mkRecognition h false)) ;; onend) s
      | _ => s
      end
  | ev_utterance_start =>
      match speechSynthesis s with
      | mkSynthesis false (u :: q) =>
          (putSynthesis (mkSynthesis true (u :: q)) ;; utterance_onstart) s
      | _ => s
      end
  | ev_utterance_end =>
      match speechSynthesis s with
      | mkSynthesis true (u :: q) =>
          (putSynthesis (mkSynthesis false q) ;; utterance_onend) s
      | _ => utterance_onend s
      end
  | ev_settled i o navigatorOnLine =>
      match nth_error (requests s) i with
      | Some r =>
          let possible :=
            match o with
            | threw AbortError => deadline r <=? now
            | _ => true
            end in
          when possible
            (putRequests (remove_at i (requests s)) ;;
             sendMessage_resume (awaiting r) now o navigatorOnLine) s
      | None => s
      end
  | ev_timeout k =>
      match nth_error (timeouts s) k with
      | Some t =>
          when (due t <=? now)
            (putTimeouts (remove_at k (timeouts s)) ;;
             remove_message (target t)) s
      | None => s
      end
  end.

(** A run of the event loop: the events in order, each with its time. *)
Definition run (trace : list (N * Event)) (s : State) : State :=
  fold_left (fun st ne => handle (fst ne) (snd ne) st) trace s.

Definition reachable (s : State) : Prop :=
  exists supported trace, s = run trace (initial supported).

(** ** Properties of the conversation log used below *)

(** A step that only appends to the log: the messages it adds are not of
    kind [status], their ids carry counters above the old counter and up to
    the new one, and no timer is added or removed. *)
Definition appends (s s' : State) : Prop :=
  exists added,
    messages s' = messages s ++ added /\
    timeouts s' = timeouts s /\
    messageCounterRef s <= messageCounterRef s' /\
    Forall (fun m =>
              type m <> status_t /\
              exists t n, id m = message_id t n /\
                          messageCounterRef s < n <= messageCounterRef s')
           added.

Definition Appends (c : Cmd) : Prop := forall s, appends s (c s).

(** A step at time [now] in which the timer at position [k], which is due,
    fires. *)
Definition fires (now : N) (k : nat) (s s' : State) : Prop :=
  exists t,
    nth_error (timeouts s) k = Some t /\
    due t <= now /\
    messages s' =
      filter (fun msg => negb (Js.eqb (id msg) (target t))) (messages s) /\
    timeouts s' = remove_at k (timeouts s) /\
    messageCounterRef s' = messageCounterRef s.

(** Ids and timers are well formed: every id was built by [addMessage]
    from a counter value already used, no two timers have the same target,
    and a message has a pending timer exactly when it is of kind
    [status]. *)
Record log_ok (s : State) : Prop := mk_log_ok {
  ok_ids : forall m, In m (messages s) ->
      exists t n, id m = message_id t n /\ n <= messageCounterRef s;
  ok_targets : forall x, In x (timeouts s) ->
      exists t n, target x = message_id t n /\ n <= messageCounterRef s;
  ok_nodup : NoDup (map target (timeouts s));
  ok_status : forall m, In m (messages s) ->
      (type m = status_t <-> In (id m) (map target (timeouts s)))
}.

(** The message [m] is in the log exactly as long as [timer] is pending,
    and [timer] is the only pending timer aimed at [m]. *)
Definition tracks (m : Message) (timer : Timeout) (s : State) : Prop :=
  (In m (messages s) <-> In timer (timeouts s)) /\
  (forall x, In x (timeouts s) -> target x = id m -> x = timer).

(** ** Two statements of the specification that the code does not satisfy,
    as they are worded *)

(** A reply to a request that was in flight when [stopAll] ran adds nothing
    to the log. *)
Definition stale_reply_discarded : Prop :=
  forall s c i r now o navigatorOnLine,
    nth_error (requests s) i = Some r ->
    messages (handle now (ev_settled i o navigatorOnLine) (stopAll c s))
    = messages (stopAll c s).


(** A call of [sendMessage] by a callback of the current render: with text
    that is not blank, nothing in flight and the connection offline, no
    [fetch] is made and exactly one error message is logged; with blank
    text, or with a request in flight, the log is left as it was. *)
Definition submit_rejections_as_worded : Prop :=
  forall s now navigatorOnLine txt,
    let s' := sendMessage (render s) now navigatorOnLine txt s in
    (truthy (trim txt) = true -> requests s = [] ->
     connectionOnline s = false ->
     requests s' = requests s /\ calls s' = calls s /\
     exists m, messages s' = messages s ++ [m] /\ type m = error_t) /\
    (truthy (trim txt) = false \/ requests s <> [] ->
     messages s' = messages s).

(** ** Properties of whole sessions *)

(** The pairs of sender and kind that the calls of [addMessage] in the
    component use: the user's text (lines 150, 229), the assistant's answer
    (line 171) and the assistant's error messages (lines 145, 187, 204,
    255, 267). *)
Definition written (snd : Sender) (ty : MessageType) : bool :=
  match snd, ty with
  | user, text_t | bot, text_t | bot, error_t => true
  | _, _ => false
  end.

(** A command keeps a property of the state. *)
Definition Keeps (P : State -> Prop) (c : Cmd) : Prop :=
  forall s, P s -> P (c s).

(** The shape of the log in a session: no timer is pending, the counter is
    the number of messages, and the message at position [i] carries its
    own timestamp and the counter value [i + 1] in its id and has one of
    the [written] pairs of sender and kind. *)
Record session_ok (s : State) : Prop := mk_session_ok {
  so_timers : timeouts s = [];
  so_counter : messageCounterRef s = N.of_nat (List.length (messages s));
  so_placed : forall i m, nth_error (messages s) i = Some m ->
      id m = message_id (timestamp m) (N.of_nat (S i)) /\
      written (sender m) (type m) = true
}.

(** A question that [trim] does not empty. *)
Definition not_blank (q : jsstring) : Prop := truthy (trim q) = true.

(** A call on a browser object that is not a [fetch] of a blank
    question. *)
Definition no_blank_fetch (c : Call) : Prop :=
  match c with
  | call_fetch q => not_blank q
  | _ => True
  end.

(** The flags that show a request being processed agree, and nothing
    blank was sent or is in flight. *)
Record dispatch_ok (s : State) : Prop := mk_dispatch_ok {
  do_flags : isTyping s = isProcessing s;
  do_calls : Forall no_blank_fetch (calls s);
  do_requests : Forall (fun r => not_blank (question r)) (requests s)
}.

(** The browser has no speech recognition and nothing was ever recorded. *)
Record unsupported (s : State) : Prop := mk_unsupported {
  un_ref : recognitionRef s = None;
  un_flag : isRecording s = false;
  un_calls : ~ In call_start (calls s) /\ ~ In call_stop (calls s)
}.

(** Text of the message logged for a reply (lines 168, 180-187). *)
Definition reply_text (o : Outcome) (navigatorOnLine : bool) : jsstring :=
  match o with
  | answered answer =>
      orElse answer (lit "I didn't receive a proper response.")
  | threw AbortError => cross ++ lit "Request timed out. Please try again."
  | threw OtherError =>
      cross ++
      (if navigatorOnLine
       then lit "I'm having trouble connecting right now. "
       else lit "You appear to be offline. Please check your internet connection.")
  end.

(** ** Proof steps shared by the theorems on the callbacks *)

(** Unfold the callbacks down to the commands. *)
Ltac open_callbacks :=
  unfold handle, switchMode, stopAll, toggleSpeaker, toggleRecording,
    stopRecording, startRecording, onerror, onresult, handleSendText,
    sendMessage_resume, sendMessage, speak, addMessage in *.

Arguments lit : simpl never.

(** Unfold the browser calls and the sequencing of commands down to the
    setters. *)
Ltac open_cmds :=
  unfold stop_if_recording, cancel_if_speaking, recognition_stop,
    synthesis_cancel, synthesis_speak, fetch, setTimeout_remove,
    remove_message, utterance_onstart, utterance_onend, onend,
    seq, when, skip in *.

(** Decide the tests that are left in the goal, one after the other. *)
Ltac split_tests :=
  repeat (simpl;
          match goal with
          | |- context [if ?b then _ else _] => destruct b eqn:?
          | |- context [match ?x with Some _ => _ | None => _ end] =>
              destruct x eqn:?
          end);
  simpl.

(** Decide every test and every case analysis that is left in the goal. *)
Ltac split_all :=
  repeat (simpl;
          match goal with
          | |- context [if ?b then _ else _] => destruct b eqn:?
          | |- context [match ?x with Some _ => _ | None => _ end] =>
              destruct x eqn:?
          | |- context [match ?x with mkRecognition _ _ => _ end] =>
              destruct x
          | |- context [match ?x with mkSynthesis _ _ => _ end] =>
              destruct x
          | |- context [match ?x with [] => _ | _ :: _ => _ end] =>
              destruct x
          | |- context [match ?x with answered _ => _ | threw _ => _ end] =>
              destruct x
          | |- context [match ?x with AbortError => _ | OtherError => _ end] =>
              destruct x
          end);
  simpl.

(** A command that leaves the log, the timers and the counter alone. *)
Ltac frame :=
  intros ?; open_cmds; exists []; simpl; rewrite ?app_nil_r;
  repeat split; try apply N.le_refl; try constructor.

Create HintDb appends.
Create HintDb keeps.

(** * Theorems *)

(** ** Strings *)

Lemma trimStart_idempotent (s : jsstring) :
  trimStart (trimStart s) = trimStart s.
Proof.
  induction s as [|c r IH]; simpl; [reflexivity|].
  destruct (isWhiteSpace c) eqn:E; [exact IH|].
  simpl. rewrite E. reflexivity.
Qed.

Lemma trimStart_snoc (a : jsstring) (c : N) :
  isWhiteSpace c = false -> exists a', trimStart (a ++ [c]) = a' ++ [c].
Proof.
  intros Hc. induction a as [|x r IH]; simpl.
  - rewrite Hc. exists []. reflexivity.
  - destruct (isWhiteSpace x).
    + exact IH.
    + exists (x :: r). reflexivity.
Qed.

Lemma trimEnd_head (c : N) (r : jsstring) :
  isWhiteSpace c = false -> exists r', trimEnd (c :: r) = c :: r'.
Proof.
  intros Hc. unfold trimEnd. simpl.
  destruct (trimStart_snoc (rev r) c Hc) as [a' Ha'].
  rewrite Ha', rev_app_distr. simpl. eauto.
Qed.

Lemma trimStart_head (s : jsstring) :
  trimStart s = [] \/
  exists c r, trimStart s = c :: r /\ isWhiteSpace c = false.
Proof.
  induction s as [|c r IH]; simpl; [now left|].
  destruct (isWhiteSpace c) eqn:E; [exact IH|].
  right. eauto.
Qed.

Lemma trimEnd_idempotent (s : jsstring) : trimEnd (trimEnd s) = trimEnd s.
Proof.
  unfold trimEnd. rewrite rev_involutive, trimStart_idempotent. reflexivity.
Qed.

(** [trim] gives a string that [trim] leaves alone. *)
Lemma trim_idempotent (s : jsstring) : trim (trim s) = trim s.
Proof.
  unfold trim.
  destruct (trimStart_head s) as [E | (c & r & E & Hc)]; rewrite E.
  - reflexivity.
  - destruct (trimEnd_head c r Hc) as [r' Hr'].
    assert (H : trimStart (trimEnd (c :: r)) = trimEnd (c :: r)).
    { rewrite Hr'. simpl. rewrite Hc. reflexivity. }
    rewrite H. apply trimEnd_idempotent.
Qed.

Lemma digits_range (d : Decimal.uint) (x : N) :
  In x (digits d) -> 48 <= x <= 57.
Proof.
  induction d; simpl; intros H; try contradiction;
    (destruct H as [H | H]; [subst x; lia | auto]).
Qed.

Lemma digits_inj (d e : Decimal.uint) : digits d = digits e -> d = e.
Proof.
  revert e. induction d; intros e H; destruct e; simpl in H;
    try discriminate; try reflexivity;
    injection H as H; f_equal; auto.
Qed.

Lemma decimal_inj (m n : N) : decimal m = decimal n -> m = n.
Proof.
  unfold decimal. intros H.
  apply DecimalN.Unsigned.to_uint_inj, digits_inj, H.
Qed.

Lemma split_at_separator (x : N) (a b a' b' : jsstring) :
  ~ In x a -> ~ In x a' ->
  a ++ x :: b = a' ++ x :: b' -> a = a' /\ b = b'.
Proof.
  revert a'. induction a as [|y a IH]; intros [|y' a'] Ha Ha' H; simpl in *.
  - injection H as H. split; [reflexivity | exact H].
  - injection H as H _. exfalso. apply Ha'. left. symmetry. exact H.
  - injection H as H _. exfalso. apply Ha. left. exact H.
  - injection H as Hy H.
    destruct (IH a') as [E1 E2]; [tauto | tauto | exact H |].
    subst. split; reflexivity.
Qed.

(** Two ids are equal only if they were built from the same instant and
    the same counter value. *)
Lemma message_id_inj (t n t' n' : N) :
  message_id t n = message_id t' n' -> t = t' /\ n = n'.
Proof.
  unfold message_id. simpl. intros H.
  apply split_at_separator in H.
  - destruct H as [H1 H2]. split; apply decimal_inj; assumption.
  - intros Hin. apply digits_range in Hin. lia.
  - intros Hin. apply digits_range in Hin. lia.
Qed.

Lemma Js_eqb_eq (a b : jsstring) : Js.eqb a b = true <-> a = b.
Proof.
  unfold Js.eqb. destruct (list_eq_dec N.eq_dec a b); split;
    intros; congruence.
Qed.

(** ** Mode switching and the guards of [sendMessage] *)

(** C3. Immediately after any [switchMode mode], whatever the state and
    whichever render the callback came from, [isRecording], [isSpeaking],
    [isProcessing] (and [isTyping]) are all false and [currentMode] is
    [mode]. The statement holds for every state, so it holds after each
    call of every sequence of calls from a reachable state. *)
Theorem switchMode_quiesces (c : Closure) (mode : ChatMode) (s : State) :
  let s' := switchMode c mode s in
  isRecording s' = false /\ isSpeaking s' = false /\
  isProcessing s' = false /\ isTyping s' = false /\
  currentMode s' = mode.
Proof.
  cbv zeta. repeat split; reflexivity.
Qed.

(** The same after a whole sequence of mode switches made through the
    event loop: the flags are false and the mode is the last one asked
    for. Every prefix of a sequence is a sequence, so this holds after each
    call. *)
Lemma mode_switches_quiesce (modes : list (N * ChatMode)) (s : State) :
  modes <> [] ->
  let s' := run (map (fun nm => (fst nm, ev_mode (snd nm))) modes) s in
  isRecording s' = false /\ isSpeaking s' = false /\
  isProcessing s' = false /\
  currentMode s' = snd (last modes (0, chat)).
Proof.
  cbv zeta. intros Hne.
  destruct (exists_last Hne) as (front & [n m] & ->).
  rewrite map_app, last_last. unfold run. rewrite fold_left_app. simpl.
  repeat split; reflexivity.
Qed.

(** [sendMessage] returns at line 142 when the [isProcessing] it reads is
    true. *)
Lemma sendMessage_returns_early
    (c : Closure) (now : N) (nav : bool) (txt : jsstring) (s : State) :
  c_isProcessing c = true -> sendMessage c now nav txt s = s.
Proof.
  intros H. unfold sendMessage. rewrite H, orb_true_r. reflexivity.
Qed.

(** A call of [sendMessage] whose own [isProcessing], the one of the
    render that created the callback, is true returns at line 142: the
    state is left as it was. *)
Lemma sendMessage_while_processing
    (c : Closure) (now : N) (nav : bool) (txt : jsstring) (s : State) :
  c_isProcessing c = true ->
  let s' := sendMessage c now nav txt s in
  s' = s /\
  List.length (messages s') = List.length (messages s) /\
  requests s' = requests s /\
  calls s' = calls s.
Proof.
  intros H. cbv zeta. rewrite (sendMessage_returns_early c now nav txt s H).
  repeat split; reflexivity.
Qed.

(** Through the event loop: submitting the text box while the state's
    [isProcessing] is true leaves the log, the requests in flight and the
    calls made as they were. *)
Lemma submit_while_processing (now : N) (nav : bool) (s : State) :
  isProcessing s = true ->
  let s' := handle now (ev_submit nav) s in
  messages s' = messages s /\ requests s' = requests s /\
  calls s' = calls s.
Proof.
  intros H. cbv zeta. unfold handle, handleSendText, when, skip, seq.
  destruct (ChatMode_eqb (currentMode s) chat);
    [|repeat split; reflexivity].
  destruct (truthy (trim (c_inputText (render s))));
    [|repeat split; reflexivity].
  rewrite sendMessage_returns_early by exact H.
  repeat split; reflexivity.
Qed.

(** The callbacks a render creates see the flags of that render. *)
Lemma render_isProcessing (s : State) :
  c_isProcessing (render s) = isProcessing s.
Proof. reflexivity. Qed.

(** C4. The code at the failing input. A capture is started in voice mode
    while idle, the mode is switched back (which calls [stop()]), a text is
    submitted from the text box, and then the transcript of the stopped
    capture is delivered. [isProcessing] is true and one request is in
    flight when the transcript arrives, yet the handler's [sendMessage],
    which reads the [isProcessing] of the render that installed it, is
    not a no-op: the log grows by two messages and a second [fetch] is
    made. *)
Theorem stale_handler_sends_while_processing :
  let s := run [(1, ev_mode voice); (2, ev_mic); (3, ev_mode chat);
                (4, ev_change (lit "abc")); (5, ev_submit true)]
               (initial true) in
  let s' := handle 6 (ev_result (lit "hello") true) s in
  isProcessing s = true /\
  map question (requests s) = [lit "abc"] /\
  List.length (messages s') = (List.length (messages s) + 2)%nat /\
  map question (requests s') = [lit "abc"; lit "hello"] /\
  calls s' = calls s ++ [call_fetch (lit "hello")].
Proof. cbv. repeat split. Qed.

(** The three returns of [sendMessage] before it sends, for a callback of
    any render: offline it logs the error message and makes no [fetch];
    blank text or [isProcessing] leave the state as it was. *)
Lemma sendMessage_rejects
    (c : Closure) (now : N) (nav : bool) (txt : jsstring) (s : State) :
  let s' := sendMessage c now nav txt s in
  (truthy (trim txt) = true -> c_isProcessing c = false ->
   c_connectionOnline c = false ->
   requests s' = requests s /\ calls s' = calls s /\
   exists m,
     messages s' = messages s ++ [m] /\
     sender m = bot /\ type m = error_t /\
     text m =
       cross ++ lit "No internet connection. Please check your network and try again.") /\
  (truthy (trim txt) = false \/ c_isProcessing c = true ->
   s' = s /\ messages s' = messages s).
Proof.
  cbv zeta. unfold sendMessage. split.
  - intros Ht Hp Ho. rewrite Ht, Hp, Ho. simpl.
    repeat split. eexists. repeat split.
  - intros [Ht | Hp].
    + rewrite Ht. simpl. split; reflexivity.
    + rewrite Hp, orb_true_r. split; reflexivity.
Qed.

(** C6, as it is worded, fails: a request is in flight, [stopAll] lowers
    [isProcessing] without touching the request, and the next text
    submitted is logged and sent although a dispatch is in flight. *)
Lemma submit_with_request_in_flight : ~ submit_rejections_as_worded.
Proof.
  intros H.
  pose (s := run [(1, ev_change (lit "hello")); (2, ev_submit true);
                  (3, ev_stop)] (initial true)).
  destruct (H s 4 true (lit "again")) as [_ H2].
  assert (Hq : requests s <> []) by (cbv; discriminate).
  specialize (H2 (or_intror Hq)).
  cbv in H2. discriminate H2.
Qed.

(** C6, amended. A call of [sendMessage] by a callback of the current
    render, so that the flags it reads are those of the state: with text
    that is not blank, [isProcessing] false and [connectionOnline] false,
    it makes no [fetch] and appends exactly one message, the assistant's
    error message about the missing connection; with blank text, or while
    [isProcessing] is true, it changes nothing. What is tested is
    [isProcessing], not whether a request is in flight. *)
Theorem submit_rejections
    (now : N) (nav : bool) (txt : jsstring) (s : State) :
  let s' := sendMessage (render s) now nav txt s in
  (truthy (trim txt) = true -> isProcessing s = false ->
   connectionOnline s = false ->
   requests s' = requests s /\ calls s' = calls s /\
   exists m,
     messages s' = messages s ++ [m] /\
     sender m = bot /\ type m = error_t /\
     text m =
       cross ++ lit "No internet connection. Please check your network and try again.") /\
  (truthy (trim txt) = false \/ isProcessing s = true ->
   s' = s /\ messages s' = messages s).
Proof.
  exact (sendMessage_rejects (render s) now nav txt s).
Qed.

Lemma submit_rejections_witness :
  let s := run [(1, ev_offline)] (initial true) in
  let s' := sendMessage (render s) 7 true (lit "hi") s in
  requests s' = requests s /\ calls s' = calls s /\
  exists m, messages s' = messages s ++ [m] /\
    sender m = bot /\ type m = error_t /\
    text m =
      cross ++ lit "No internet connection. Please check your network and try again.".
Proof.
  apply (submit_rejections 7 true (lit "hi") (run [(1, ev_offline)] (initial true)));
    reflexivity.
Defined.

(** What an accepted [sendMessage] does before it awaits, for a text that
    [encodeURIComponent] accepts: one user message, both flags raised, one
    [fetch] whose abort timer is due 15000 ms later. *)
Lemma sendMessage_dispatches
    (c : Closure) (now : N) (nav : bool) (txt : jsstring) (s : State) :
  truthy (trim txt) = true -> c_isProcessing c = false ->
  c_connectionOnline c = true -> isWellFormed txt = true ->
  let s' := sendMessage c now nav txt s in
  messages s' =
    messages s ++
    [mkMessage (message_id now (messageCounterRef s + 1)) txt user now text_t] /\
  isProcessing s' = true /\ isTyping s' = true /\
  requests s' = requests s ++ [mkRequest txt (now + 15000) c] /\
  calls s' = calls s ++ [call_fetch txt].
Proof.
  intros Ht Hp Ho Hw. cbv zeta. unfold sendMessage.
  rewrite Ht, Hp, Ho, Hw. simpl. repeat split.
Qed.

(** When [encodeURIComponent] throws, [sendMessage] makes no [fetch]: in
    the same turn it logs the user's text and then the assistant's error
    message, and both flags are back to false. *)
Lemma sendMessage_malformed
    (c : Closure) (now : N) (nav : bool) (txt : jsstring) (s : State) :
  truthy (trim txt) = true -> c_isProcessing c = false ->
  c_connectionOnline c = true -> isWellFormed txt = false ->
  let s' := sendMessage c now nav txt s in
  (exists m e,
     messages s' = messages s ++ [m; e] /\
     sender m = user /\ text m = txt /\ type m = text_t /\
     sender e = bot /\ type e = error_t) /\
  isProcessing s' = false /\ isTyping s' = false /\
  requests s' = requests s /\ calls s' = calls s.
Proof.
  intros Ht Hp Ho Hw. cbv zeta. unfold sendMessage, addMessage.
  rewrite Ht, Hp, Ho, Hw. open_cmds. simpl.
  split; [|repeat split].
  eexists. eexists. split; [rewrite <- app_assoc; reflexivity|].
  repeat split.
Qed.

(** ** Replies *)

(** The abort timer of a request cannot settle it before its deadline. *)
Lemma abort_not_before_deadline
    (s : State) (i : nat) (r : Request) (now : N) (navigatorOnLine : bool) :
  nth_error (requests s) i = Some r ->
  now < deadline r ->
  handle now (ev_settled i (threw AbortError) navigatorOnLine) s = s.
Proof.
  intros Hr Hlt. unfold handle. rewrite Hr.
  apply N.leb_gt in Hlt. rewrite Hlt. reflexivity.
Qed.

(** C5. When the abort timer of a request in flight fires (its deadline
    is 15000 ms after the dispatch, see [sendMessage_dispatches]), the
    [fetch] rejects with an [AbortError] and the [catch] block appends
    exactly one message, the bot's error message about the timeout;
    [isTyping] and [isProcessing] become false, no assistant message is
    appended and the synthesizer is not called. *)
Theorem timeout_reported
    (s : State) (i : nat) (r : Request) (now : N) (navigatorOnLine : bool) :
  nth_error (requests s) i = Some r ->
  deadline r <= now ->
  let s' := handle now (ev_settled i (threw AbortError) navigatorOnLine) s in
  (exists m,
     messages s' = messages s ++ [m] /\
     sender m = bot /\ type m = error_t /\
     text m = cross ++ lit "Request timed out. Please try again.") /\
  isTyping s' = false /\ isProcessing s' = false /\
  calls s' = calls s /\ speechSynthesis s' = speechSynthesis s /\
  requests s' = remove_at i (requests s).
Proof.
  intros Hr Hle. cbv zeta. unfold handle. rewrite Hr.
  apply N.leb_le in Hle. rewrite Hle. simpl.
  repeat split. eexists. repeat split.
Qed.

Lemma timeout_reported_witness :
  let s := run [(1, ev_change (lit "hello")); (2, ev_submit true)] (initial true) in
  let s' := handle 15002 (ev_settled 0 (threw AbortError) true) s in
  (exists m,
     messages s' = messages s ++ [m] /\
     sender m = bot /\ type m = error_t /\
     text m = cross ++ lit "Request timed out. Please try again.") /\
  isTyping s' = false /\ isProcessing s' = false /\
  calls s' = calls s /\ speechSynthesis s' = speechSynthesis s /\
  requests s' = remove_at 0 (requests s).
Proof.
  apply (timeout_reported
           (run [(1, ev_change (lit "hello")); (2, ev_submit true)] (initial true))
           0 (mkRequest (lit "hello") 15002
                (mkClosure (lit "hello") chat false true false true))
           15002 true).
  - reflexivity.
  - simpl. lia.
Defined.

(** C1, as it is worded, fails: a request is in flight, [stopAll] runs, the
    answer arrives and is appended to the log. *)
Lemma stale_reply_is_appended : ~ stale_reply_discarded.
Proof.
  intros H.
  pose (s := run [(1, ev_change (lit "hello")); (2, ev_submit true)] (initial true)).
  specialize (H s (render s) 0%nat
                (mkRequest (lit "hello") 15002
                   (mkClosure (lit "hello") chat false true false true))
                4 (answered (Some (lit "hi"))) true eq_refl).
  vm_compute in H. discriminate H.
Qed.

(** C1, amended. [stopAll] lowers [isProcessing] and [isTyping] and leaves
    every request in flight as it is: nothing aborts it and nothing marks
    it as stale. When such a request settles afterwards, its reply is
    handled like any other: exactly one message is appended, the bot's
    answer (or the fixed fallback text) for an answer, the bot's error
    message for a failure, and [isProcessing] is false afterwards. *)
Theorem reply_after_stopAll_is_logged
    (s : State) (c : Closure) (i : nat) (r : Request)
    (now : N) (o : Outcome) (navigatorOnLine : bool) :
  nth_error (requests s) i = Some r ->
  (o = threw AbortError -> deadline r <= now) ->
  let s1 := stopAll c s in
  let s2 := handle now (ev_settled i o navigatorOnLine) s1 in
  requests s1 = requests s /\
  isProcessing s1 = false /\ isTyping s1 = false /\
  (exists m,
     messages s2 = messages s1 ++ [m] /\
     sender m = bot /\
     match o with
     | answered answer =>
         type m = text_t /\
         text m = orElse answer (lit "I didn't receive a proper response.")
     | threw _ => type m = error_t
     end) /\
  isProcessing s2 = false /\ isTyping s2 = false.
Proof.
  intros Hr Hd. cbv zeta.
  assert (Hreq : requests (stopAll c s) = requests s).
  { unfold stopAll. open_cmds. split_tests; reflexivity. }
  split; [exact Hreq|]. split; [reflexivity|]. split; [reflexivity|].
  unfold handle. rewrite Hreq, Hr.
  destruct o as [answer | e].
  - unfold sendMessage_resume, speak, addMessage. open_cmds.
    split_tests; (split; [eexists; repeat split | split; reflexivity]).
  - assert (Hp : match e with
                 | AbortError => deadline r <=? now
                 | OtherError => true
                 end = true).
    { destruct e; [apply N.leb_le; auto | reflexivity]. }
    rewrite Hp. simpl. split; [|split; reflexivity].
    eexists. repeat split.
Qed.

Lemma reply_after_stopAll_is_logged_witness :
  let s := run [(1, ev_change (lit "hello")); (2, ev_submit true)] (initial true) in
  let s1 := stopAll (render s) s in
  let s2 := handle 4 (ev_settled 0 (answered (Some (lit "hi"))) true) s1 in
  requests s1 = requests s /\
  isProcessing s1 = false /\ isTyping s1 = false /\
  (exists m,
     messages s2 = messages s1 ++ [m] /\
     sender m = bot /\
     type m = text_t /\
     text m = orElse (Some (lit "hi")) (lit "I didn't receive a proper response.")) /\
  isProcessing s2 = false /\ isTyping s2 = false.
Proof.
  apply (reply_after_stopAll_is_logged
           (run [(1, ev_change (lit "hello")); (2, ev_submit true)] (initial true))
           (render (run [(1, ev_change (lit "hello")); (2, ev_submit true)]
                        (initial true)))
           0 (mkRequest (lit "hello") 15002
                (mkClosure (lit "hello") chat false true false true))
           4 (answered (Some (lit "hi"))) true).
  - reflexivity.
  - discriminate.
Defined.

(** ** Speech capture *)

(** A successful [startRecording] installs handlers that carry the closure
    of the call. *)
Lemma startRecording_installs
    (c : Closure) (now : N) (s : State) (r : Recognition) :
  recognitionRef s = Some r -> started r = false -> c_isRecording c = false ->
  recognitionRef (startRecording c now s) = Some (mkRecognition (Some c) true)
  /\ isRecording (startRecording c now s) = true.
Proof.
  intros Hr Hs Hc. unfold startRecording. rewrite Hr, Hc, Hs.
  open_cmds. split_tests; split; reflexivity.
Qed.




(** With the connection online the same transcript is logged twice, once by
    the handler (line 229) and once by [sendMessage] (line 150). *)
Lemma voice_transcript_logged_twice :
  let s := run [(1, ev_mode voice); (2, ev_mic)] (initial true) in
  let s' := handle 3 (ev_result (lit "hello") true) s in
  messages s' =
    [mkMessage (message_id 3 1) (lit "hello") user 3 text_t;
     mkMessage (message_id 3 2) (lit "hello") user 3 text_t] /\
  calls s' = calls s ++ [call_fetch (lit "hello")].
Proof. vm_compute. split; reflexivity. Qed.



(** ** The text box *)

(** C10. When the input is not blank, [handleSendText] always leaves the
    input buffer empty. If [sendMessage] rejects the text because a request
    is being processed, nothing is logged and no [fetch] is made; if it
    rejects it because the connection is offline, no [fetch] is made and
    the only message logged is the bot's error message, so the typed text
    is neither sent nor logged as a user message. *)
Theorem handleSendText_clears_input
    (c : Closure) (now : N) (nav : bool) (s : State) :
  truthy (trim (c_inputText c)) = true ->
  let s' := handleSendText c now nav s in
  inputText s' = [] /\
  (c_isProcessing c = true ->
   messages s' = messages s /\ requests s' = requests s /\
   calls s' = calls s) /\
  (c_isProcessing c = false -> c_connectionOnline c = false ->
   requests s' = requests s /\ calls s' = calls s /\
   exists m, messages s' = messages s ++ [m] /\
             sender m = bot /\ type m = error_t).
Proof.
  intros Ht. cbv zeta. unfold handleSendText. rewrite Ht.
  unfold sendMessage. rewrite trim_idempotent, Ht. simpl.
  destruct (c_isProcessing c), (c_connectionOnline c); simpl;
    (split; [reflexivity|]);
    (split; [intros; try discriminate; repeat split|]);
    intros; try discriminate.
  repeat split. eexists. repeat split.
Qed.

Lemma handleSendText_clears_input_witness :
  let s := run [(1, ev_change (lit "first")); (2, ev_submit true);
                (3, ev_change (lit " second "))] (initial true) in
  let s' := handleSendText (render s) 4 true s in
  inputText s = lit " second " /\ isProcessing s = true /\
  inputText s' = [] /\ messages s' = messages s /\
  requests s' = requests s /\ calls s' = calls s.
Proof.
  pose (s := run [(1, ev_change (lit "first")); (2, ev_submit true);
                  (3, ev_change (lit " second "))] (initial true)).
  destruct (handleSendText_clears_input (render s) 4 true s eq_refl)
    as (H1 & H2 & _).
  split; [reflexivity|]. split; [reflexivity|].
  split; [exact H1|]. exact (H2 eq_refl).
Defined.

(** ** Speech playback *)

(** [speak] with the empty text does nothing. When the synthesizer is
    speaking, a call either does nothing at all (speech output is off in
    the closure, or the text is empty) or cancels first and then speaks:
    [cancel] is called before [speak], and the queue of the synthesizer
    holds the new utterance alone, so utterances are never queued behind
    the one that was being spoken. *)
Lemma speak_preempts (c : Closure) (txt : jsstring) (s : State) :
  speak c [] s = s /\
  (speaking (speechSynthesis s) = true ->
   let s' := speak c txt s in
   if c_speechEnabled c && truthy txt then
     calls s' = calls s ++ [call_cancel; call_speak txt] /\
     queue (speechSynthesis s') = [txt] /\
     messages s' = messages s
   else s' = s).
Proof.
  split.
  - unfold speak. rewrite orb_true_r. reflexivity.
  - intros Hs. cbv zeta. unfold speak.
    destruct (c_speechEnabled c), (truthy txt); simpl; try reflexivity.
    open_cmds. rewrite Hs. simpl. rewrite <- app_assoc. repeat split.
Qed.

Lemma speak_preempts_witness :
  let s := run [(1, ev_change (lit "q")); (2, ev_submit true);
                (3, ev_settled 0 (answered (Some (lit "one"))) true);
                (4, ev_utterance_start)] (initial true) in
  let s' := speak (render s) (lit "two") s in
  speaking (speechSynthesis s) = true /\
  queue (speechSynthesis s) = [lit "one"] /\
  calls s' = calls s ++ [call_cancel; call_speak (lit "two")] /\
  queue (speechSynthesis s') = [lit "two"] /\
  messages s' = messages s.
Proof.
  intros s.
  destruct (speak_preempts (render s) (lit "two") s) as [_ H].
  specialize (H eq_refl). cbv in H. cbv.
  split; [reflexivity|]. split; [reflexivity|]. exact H.
Defined.

(** The only test [speak] makes before it speaks is
    [speechSynthesis.speaking] (line 121): an utterance that is queued but
    has not started yet is not cancelled, and the new one is queued behind
    it. *)
Lemma speak_while_pending (c : Closure) (txt : jsstring) (s : State) :
  c_speechEnabled c = true -> truthy txt = true ->
  speaking (speechSynthesis s) = false ->
  let s' := speak c txt s in
  queue (speechSynthesis s') = queue (speechSynthesis s) ++ [txt] /\
  calls s' = calls s ++ [call_speak txt].
Proof.
  intros He Ht Hs. cbv zeta. unfold speak. rewrite He, Ht. open_cmds.
  simpl. rewrite Hs. simpl. split; reflexivity.
Qed.


(** The one call of [speak] in the component (line 174) is made under the
    test of the same [speechEnabled] that [speak] reads, so that call never
    returns at the first test of line 119. *)
Lemma speak_called_enabled
    (c : Closure) (now : N) (answer : option jsstring) (nav : bool)
    (s : State) :
  c_speechEnabled c = true ->
  calls (sendMessage_resume c now (answered answer) nav s)
  = calls s ++
    (if speaking (speechSynthesis s) then [call_cancel] else []) ++
    [call_speak (orElse answer (lit "I didn't receive a proper response."))].
Proof.
  intros He. unfold sendMessage_resume, speak, addMessage. rewrite He.
  assert (Ht : truthy (orElse answer (lit "I didn't receive a proper response."))
               = true).
  { destruct answer as [[|x a]|]; reflexivity. }
  rewrite Ht. open_cmds. simpl.
  destruct (speaking (speechSynthesis s)); simpl;
    rewrite <- ?app_assoc; reflexivity.
Qed.

(** ** The conversation log *)

Lemma appends_refl (s : State) : appends s s.
Proof.
  exists []. rewrite app_nil_r. repeat split; try apply N.le_refl.
  constructor.
Qed.

Lemma appends_trans (s1 s2 s3 : State) :
  appends s1 s2 -> appends s2 s3 -> appends s1 s3.
Proof.
  intros (a1 & Hm1 & Ht1 & Hc1 & Hf1) (a2 & Hm2 & Ht2 & Hc2 & Hf2).
  exists (a1 ++ a2). repeat split.
  - rewrite Hm2, Hm1, app_assoc. reflexivity.
  - congruence.
  - lia.
  - apply Forall_app. split.
    + eapply Forall_impl; [|exact Hf1].
      intros m (Hty & t & n & Hid & Hn). split; [exact Hty|].
      exists t, n. split; [exact Hid | lia].
    + eapply Forall_impl; [|exact Hf2].
      intros m (Hty & t & n & Hid & Hn). split; [exact Hty|].
      exists t, n. split; [exact Hid | lia].
Qed.

Lemma Appends_apply (c : Cmd) (s : State) : Appends c -> appends s (c s).
Proof. intros H. apply H. Qed.

Lemma Appends_skip : Appends skip.
Proof. intros s. apply appends_refl. Qed.

Lemma Appends_seq (a b : Cmd) : Appends a -> Appends b -> Appends (a ;; b).
Proof.
  intros Ha Hb s. unfold seq. eapply appends_trans; [apply Ha | apply Hb].
Qed.

Lemma Appends_if (t : bool) (a b : Cmd) :
  Appends a -> Appends b -> Appends (if t then a else b).
Proof. destruct t; auto. Qed.

Lemma Appends_when (t : bool) (a : Cmd) : Appends a -> Appends (when t a).
Proof. intros Ha. unfold when. apply Appends_if; [exact Ha | apply Appends_skip]. Qed.

Lemma Appends_setInputText v : Appends (setInputText v).
Proof. frame. Qed.
Lemma Appends_setCurrentMode v : Appends (setCurrentMode v).
Proof. frame. Qed.
Lemma Appends_setIsProcessing v : Appends (setIsProcessing v).
Proof. frame. Qed.
Lemma Appends_setIsTyping v : Appends (setIsTyping v).
Proof. frame. Qed.
Lemma Appends_setSpeechEnabled v : Appends (setSpeechEnabled v).
Proof. frame. Qed.
Lemma Appends_setIsRecording v : Appends (setIsRecording v).
Proof. frame. Qed.
Lemma Appends_setIsSpeaking v : Appends (setIsSpeaking v).
Proof. frame. Qed.
Lemma Appends_setConnectionOnline v : Appends (setConnectionOnline v).
Proof. frame. Qed.
Lemma Appends_putRecognition v : Appends (putRecognition v).
Proof. frame. Qed.
Lemma Appends_putSynthesis v : Appends (putSynthesis v).
Proof. frame. Qed.
Lemma Appends_putRequests v : Appends (putRequests v).
Proof. frame. Qed.
Lemma Appends_record v : Appends (record v).
Proof. frame. Qed.
Lemma Appends_synthesis_speak t : Appends (synthesis_speak t).
Proof. frame. Qed.
Lemma Appends_fetch now c q : Appends (fetch now c q).
Proof. frame. Qed.

Lemma Appends_cancel_if_speaking : Appends cancel_if_speaking.
Proof.
  intros s. unfold cancel_if_speaking.
  destruct (speaking (speechSynthesis s)); revert s; frame.
Qed.

Lemma Appends_stop_if_recording c : Appends (stop_if_recording c).
Proof.
  intros s. unfold stop_if_recording.
  destruct (recognitionRef s), (c_isRecording c); revert s; frame.
Qed.

(** [addMessage] with a kind other than [status] appends one message and
    sets no timer. *)
Lemma Appends_addMessage now txt snd ty :
  ty <> status_t -> Appends (addMessage now txt snd ty).
Proof.
  intros Hty s. unfold addMessage.
  assert (E : MessageType_eqb ty status_t = false)
    by (destruct ty; [reflexivity | congruence | reflexivity]).
  rewrite E. open_cmds. unfold appends. cbn -[N.add].
  eexists. split; [reflexivity|]. split; [reflexivity|].
  split; [lia|]. constructor; [|constructor]. cbn -[N.add].
  split; [exact Hty|]. eexists. eexists. split; [reflexivity | lia].
Qed.

#[local] Hint Resolve Appends_skip Appends_seq Appends_if Appends_when
  Appends_setInputText Appends_setCurrentMode Appends_setIsProcessing
  Appends_setIsTyping Appends_setSpeechEnabled Appends_setIsRecording
  Appends_setIsSpeaking Appends_setConnectionOnline Appends_putRecognition
  Appends_putSynthesis Appends_putRequests Appends_record
  Appends_synthesis_speak Appends_fetch Appends_cancel_if_speaking
  Appends_stop_if_recording Appends_addMessage : appends.

#[local] Hint Extern 1 (_ <> status_t) => discriminate : appends.

Lemma Appends_speak c txt : Appends (speak c txt).
Proof. unfold speak. auto with appends. Qed.

Lemma Appends_sendMessage c now nav txt :
  Appends (sendMessage c now nav txt).
Proof. unfold sendMessage. auto 14 with appends. Qed.

Lemma Appends_sendMessage_resume c now o nav :
  Appends (sendMessage_resume c now o nav).
Proof.
  pose proof Appends_speak.
  unfold sendMessage_resume. destruct o; auto 10 with appends.
Qed.

Lemma Appends_handleSendText c now nav :
  Appends (handleSendText c now nav).
Proof.
  pose proof Appends_sendMessage.
  unfold handleSendText. auto 10 with appends.
Qed.

Lemma Appends_onresult c now nav t : Appends (onresult c now nav t).
Proof.
  pose proof Appends_sendMessage.
  unfold onresult. auto 10 with appends.
Qed.

Lemma Appends_onerror now e : Appends (onerror now e).
Proof. unfold onerror. auto 10 with appends. Qed.

Lemma Appends_startRecording c now : Appends (startRecording c now).
Proof.
  intros s. unfold startRecording.
  destruct (recognitionRef s) as [r|].
  - destruct (c_isRecording c); [apply appends_refl|].
    apply Appends_apply. auto 12 with appends.
  - apply Appends_apply. auto with appends.
Qed.

Lemma Appends_stopRecording c : Appends (stopRecording c).
Proof. unfold stopRecording. auto with appends. Qed.

Lemma Appends_toggleRecording c now : Appends (toggleRecording c now).
Proof.
  unfold toggleRecording.
  apply Appends_if; [apply Appends_stopRecording | apply Appends_startRecording].
Qed.

Lemma Appends_toggleSpeaker : Appends toggleSpeaker.
Proof.
  intros s. unfold toggleSpeaker. apply Appends_apply. auto with appends.
Qed.

Lemma Appends_stopAll c : Appends (stopAll c).
Proof. unfold stopAll. auto 10 with appends. Qed.

Lemma Appends_switchMode c mode : Appends (switchMode c mode).
Proof.
  pose proof Appends_stopAll. unfold switchMode. auto with appends.
Qed.

(** Every turn of the event loop either only appends to the log or is the
    firing of a timer that is due. *)
Lemma handle_step (now : N) (e : Event) (s : State) :
  appends s (handle now e s) \/ exists k, fires now k s (handle now e s).
Proof.
  pose proof Appends_handleSendText. pose proof Appends_toggleRecording.
  pose proof Appends_startRecording. pose proof Appends_toggleSpeaker.
  pose proof Appends_stopAll. pose proof Appends_switchMode.
  pose proof Appends_onresult. pose proof Appends_onerror.
  pose proof Appends_sendMessage_resume.
  destruct e; unfold handle;
    try (left; apply Appends_apply; unfold onend, utterance_onend;
         auto with appends; fail).
  - left. destruct (recognitionRef s) as [[[h|] [|]]|];
      try apply appends_refl. apply Appends_apply. auto.
  - left. destruct (recognitionRef s) as [[[h|] [|]]|];
      try apply appends_refl. apply Appends_apply. auto.
  - left. destruct (recognitionRef s) as [[h [|]]|];
      try apply appends_refl.
    apply Appends_apply. unfold onend. auto with appends.
  - left. destruct (speechSynthesis s) as [[|] [|u q]];
      try apply appends_refl.
    apply Appends_apply. unfold utterance_onstart. auto with appends.
  - left. destruct (speechSynthesis s) as [[|] [|u q]];
      apply Appends_apply; unfold utterance_onend; auto with appends.
  - left. destruct (nth_error (requests s) i) as [r|];
      [|apply appends_refl].
    apply Appends_apply. auto with appends.
  - destruct (nth_error (timeouts s) k) as [t|] eqn:Hk;
      [|left; apply appends_refl].
    destruct (due t <=? now) eqn:Hd; [|left; apply appends_refl].
    right. exists k, t. apply N.leb_le in Hd.
    repeat split; assumption.
Qed.

(** *** Lists with one position removed *)

Lemma remove_at_In {A : Type} (k : nat) (l : list A) (x : A) :
  In x (remove_at k l) -> In x l.
Proof.
  revert k. induction l as [|y l IH]; intros [|k]; simpl; auto.
  intros [H | H]; [left; exact H | right; eauto].
Qed.

Lemma remove_at_keeps {A : Type} (k : nat) (l : list A) (x y : A) :
  nth_error l k = Some y -> x <> y -> In x l -> In x (remove_at k l).
Proof.
  revert k. induction l as [|z l IH]; intros [|k]; simpl;
    try contradiction.
  - intros [= ->] Hne [H | H]; [congruence | exact H].
  - intros Hk Hne [H | H]; [left; exact H | right; eauto].
Qed.

Lemma remove_at_map {A B : Type} (f : A -> B) (k : nat) (l : list A) :
  map f (remove_at k l) = remove_at k (map f l).
Proof.
  revert k. induction l as [|y l IH]; intros [|k]; simpl; auto.
  f_equal. apply IH.
Qed.

Lemma remove_at_NoDup {A : Type} (k : nat) (l : list A) :
  NoDup l -> NoDup (remove_at k l).
Proof.
  intros H. revert k. induction H as [|y l Hy Hl IH]; intros [|k]; simpl;
    try constructor; auto.
  intros Hin. apply Hy. eapply remove_at_In, Hin.
Qed.

Lemma remove_at_gone {A : Type} (k : nat) (l : list A) (y : A) :
  NoDup l -> nth_error l k = Some y -> ~ In y (remove_at k l).
Proof.
  intros H. revert k. induction H as [|z l Hz Hl IH]; intros [|k]; simpl;
    try discriminate.
  - intros [= ->]. exact Hz.
  - intros Hk [E | Hin].
    + subst z. apply Hz. eapply nth_error_In, Hk.
    + eapply IH; eauto.
Qed.

(** *** The well-formedness of ids and timers is an invariant *)

Lemma log_ok_initial (supported : bool) : log_ok (initial supported).
Proof.
  constructor; simpl; try contradiction. constructor.
Qed.

Lemma log_ok_appends (s s' : State) : log_ok s -> appends s s' -> log_ok s'.
Proof.
  intros [Hids Htg Hnd Hst] (added & Hm & Ht & Hc & Hf).
  rewrite Forall_forall in Hf.
  constructor.
  - intros m. rewrite Hm, in_app_iff. intros [Hin | Hin].
    + destruct (Hids m Hin) as (t & n & E & Hn). exists t, n.
      split; [exact E | lia].
    + destruct (Hf m Hin) as (_ & t & n & E & Hn). exists t, n.
      split; [exact E | lia].
  - intros x. rewrite Ht. intros Hin.
    destruct (Htg x Hin) as (t & n & E & Hn). exists t, n.
    split; [exact E | lia].
  - rewrite Ht. exact Hnd.
  - intros m. rewrite Hm, Ht, in_app_iff. intros [Hin | Hin].
    + apply Hst, Hin.
    + destruct (Hf m Hin) as (Hty & t & n & E & Hn).
      split; [intros; contradiction|].
      intros Hin'. apply in_map_iff in Hin' as (x & Hx & Hxin).
      destruct (Htg x Hxin) as (t' & n' & E' & Hn').
      rewrite E, E' in Hx. apply message_id_inj in Hx as [_ Hx]. lia.
Qed.

Lemma log_ok_fires (now : N) (k : nat) (s s' : State) :
  log_ok s -> fires now k s s' -> log_ok s'.
Proof.
  intros [Hids Htg Hnd Hst] (t & Hk & _ & Hm & Ht & Hc).
  constructor.
  - intros m. rewrite Hm, Hc, filter_In. intros [Hin _]. auto.
  - intros x. rewrite Ht, Hc. intros Hin. eapply Htg, remove_at_In, Hin.
  - rewrite Ht, remove_at_map. apply remove_at_NoDup, Hnd.
  - intros m. rewrite Hm, Ht, filter_In, negb_true_iff.
    intros [Hin Hne]. rewrite (Hst m Hin), remove_at_map. split.
    + apply (remove_at_keeps k (map target (timeouts s)) (id m) (target t)).
      * apply map_nth_error, Hk.
      * intros E. apply Js_eqb_eq in E. congruence.
    + apply remove_at_In.
Qed.

Lemma log_ok_handle (now : N) (e : Event) (s : State) :
  log_ok s -> log_ok (handle now e s).
Proof.
  intros H. destruct (handle_step now e s) as [Ha | [k Hf]].
  - eapply log_ok_appends; eauto.
  - eapply log_ok_fires; eauto.
Qed.

Lemma log_ok_run (trace : list (N * Event)) (s : State) :
  log_ok s -> log_ok (run trace s).
Proof.
  revert s. induction trace as [|[now e] trace IH]; intros s H; simpl.
  - exact H.
  - apply IH, log_ok_handle, H.
Qed.

Lemma log_ok_reachable (s : State) : reachable s -> log_ok s.
Proof.
  intros (supported & trace & ->). apply log_ok_run, log_ok_initial.
Qed.

(** What [addMessage] does to the log, the timers and the counter. *)
Lemma addMessage_effect now txt snd ty s :
  let m := mkMessage (message_id now (messageCounterRef s + 1))
             txt snd now ty in
  messages (addMessage now txt snd ty s) = messages s ++ [m] /\
  timeouts (addMessage now txt snd ty s)
  = timeouts s ++
    (if MessageType_eqb ty status_t
     then [mkTimeout (now + 5000) (id m)] else []) /\
  messageCounterRef (addMessage now txt snd ty s) = messageCounterRef s + 1.
Proof.
  unfold addMessage. open_cmds.
  destruct (MessageType_eqb ty status_t); cbn -[N.add];
    rewrite ?app_nil_r; repeat split.
Qed.

Lemma log_ok_addMessage now txt snd ty s :
  log_ok s -> log_ok (addMessage now txt snd ty s).
Proof.
  intros Hok.
  destruct (MessageType_eqb ty status_t) eqn:Ety.
  2:{ eapply log_ok_appends; [exact Hok|].
      apply Appends_addMessage. intros ->. discriminate. }
  assert (Hty : ty = status_t) by (destruct ty; (reflexivity || discriminate)).
  destruct (addMessage_effect now txt snd ty s) as (Hm & Ht & Hc).
  rewrite Ety in Ht. cbn -[N.add] in Ht.
  destruct Hok as [Hids Htg Hnd Hst].
  assert (Hfresh : ~ In (message_id now (messageCounterRef s + 1))
                        (map target (timeouts s))).
  { intros Hin. apply in_map_iff in Hin as (x & Hx & Hxin).
    destruct (Htg x Hxin) as (t' & n' & E' & Hn').
    rewrite E' in Hx. apply message_id_inj in Hx as [_ Hx]. lia. }
  constructor.
  - intros m. rewrite Hm, Hc, in_app_iff. intros [Hin | [<- | []]].
    + destruct (Hids m Hin) as (t & n & E & Hn). exists t, n.
      split; [exact E | lia].
    + exists now, (messageCounterRef s + 1). split; [reflexivity | lia].
  - intros x. rewrite Ht, Hc, in_app_iff. intros [Hin | [<- | []]].
    + destruct (Htg x Hin) as (t & n & E & Hn). exists t, n.
      split; [exact E | lia].
    + exists now, (messageCounterRef s + 1). split; [reflexivity | lia].
  - rewrite Ht, map_app. cbn -[N.add].
    apply NoDup_app; [exact Hnd | repeat constructor; auto |].
    intros x Hx [<- | []]. apply Hfresh, Hx.
  - intros m. rewrite Hm, Ht, map_app, !in_app_iff. cbn -[N.add].
    intros [Hin | [<- | []]].
    + rewrite (Hst m Hin). split; [tauto|].
      intros [H | [H | []]]; [exact H|]. exfalso.
      destruct (Hids m Hin) as (t & n & E & Hn).
      rewrite E in H. apply message_id_inj in H as [_ H]. lia.
    + cbn -[N.add]. split; [intros; right; left; reflexivity | intros; exact Hty].
Qed.

(** *** Lifetime of the messages *)

(** A message that is not of kind [status] survives every turn of the
    event loop. *)
Lemma persists_handle (now : N) (e : Event) (s : State) (m : Message) :
  log_ok s -> type m <> status_t ->
  In m (messages s) -> In m (messages (handle now e s)).
Proof.
  intros Hok Hty Hin.
  destruct (handle_step now e s) as [(added & Hm & _) | (k & t & Hk & _ & Hm & _)];
    rewrite Hm.
  - apply in_app_iff. left. exact Hin.
  - apply filter_In. split; [exact Hin|].
    apply negb_true_iff. destruct (Js.eqb (id m) (target t)) eqn:E;
      [|reflexivity].
    exfalso. apply Hty. apply (ok_status s Hok m Hin).
    apply Js_eqb_eq in E. rewrite E.
    apply in_map. eapply nth_error_In, Hk.
Qed.

Lemma persists_run (trace : list (N * Event)) (s : State) (m : Message) :
  log_ok s -> type m <> status_t ->
  In m (messages s) -> In m (messages (run trace s)).
Proof.
  revert s. induction trace as [|[now e] trace IH]; intros s Hok Hty Hin;
    simpl.
  - exact Hin.
  - apply IH; [apply log_ok_handle, Hok | exact Hty |].
    apply persists_handle; assumption.
Qed.

(** A [status] message and its timer leave together. *)
Lemma tracks_handle (now : N) (e : Event) (s : State)
    (m : Message) (timer : Timeout) :
  log_ok s -> type m = status_t -> target timer = id m ->
  tracks m timer s -> tracks m timer (handle now e s).
Proof.
  intros Hok Hty Htg [Hiff Huniq].
  destruct (handle_step now e s)
    as [(added & Hm & Ht & _ & Hf) | (k & t & Hk & _ & Hm & Ht & _)];
    split; rewrite ?Hm, ?Ht.
  - rewrite in_app_iff, <- Hiff. split; [|tauto].
    intros [H | H]; [exact H|]. exfalso.
    rewrite Forall_forall in Hf. destruct (Hf m H) as [Hne _]. auto.
  - exact Huniq.
  - rewrite filter_In, negb_true_iff.
    destruct (Js.eqb (id m) (target t)) eqn:E.
    + apply Js_eqb_eq in E.
      assert (Et : t = timer).
      { apply Huniq; [eapply nth_error_In, Hk | congruence]. }
      subst t. split; [intros [_ H]; discriminate H|].
      intros Hin. exfalso.
      apply (remove_at_gone k (map target (timeouts s)) (target timer)).
      * apply (ok_nodup s Hok).
      * apply map_nth_error, Hk.
      * rewrite <- remove_at_map. apply in_map, Hin.
    + rewrite Hiff. split.
      * intros [H _]. eapply remove_at_keeps; [exact Hk | | exact H].
        intros <-. rewrite Htg in E.
        assert (Js.eqb (id m) (id m) = true) by (apply Js_eqb_eq; reflexivity).
        congruence.
      * intros H. split; [eapply remove_at_In, H | reflexivity].
  - intros x Hx. apply Huniq. eapply remove_at_In, Hx.
Qed.

Lemma tracks_run (trace : list (N * Event)) (s : State)
    (m : Message) (timer : Timeout) :
  log_ok s -> type m = status_t -> target timer = id m ->
  tracks m timer s -> tracks m timer (run trace s).
Proof.
  revert s. induction trace as [|[now e] trace IH]; intros s Hok Hty Htg H;
    simpl.
  - exact H.
  - apply IH; [apply log_ok_handle, Hok | exact Hty | exact Htg |].
    apply tracks_handle; assumption.
Qed.

(** A timer stays pending through every turn that comes before it is
    due. *)
Lemma timer_waits (trace : list (N * Event)) (s : State) (timer : Timeout) :
  Forall (fun ne => fst ne < due timer) trace ->
  In timer (timeouts s) -> In timer (timeouts (run trace s)).
Proof.
  revert s. induction trace as [|[now e] trace IH]; intros s Hall Hin;
    simpl.
  - exact Hin.
  - inversion Hall as [|x l Hnow Hrest]; subst. simpl in Hnow.
    apply IH; [exact Hrest|].
    destruct (handle_step now e s)
      as [(added & _ & Ht & _) | (k & t & Hk & Hdue & _ & Ht & _)];
      rewrite Ht.
    + exact Hin.
    + eapply remove_at_keeps; [exact Hk | | exact Hin].
      intros ->. lia.
Qed.

(** C7. [addMessage] appends its message and, for the kind [status] only,
    sets a timer due 5000 ms later. Whatever the event loop does next,
    a message of kind [text] or [error] stays in the log for good; a
    [status] message is in the log exactly as long as its timer is
    pending, so it is still there after any events that all come before
    the 5000 ms have passed, and it is gone as soon as the timer, then
    due, fires. *)
Theorem status_messages_expire
    (now : N) (txt : jsstring) (snd : Sender) (ty : MessageType) (s : State) :
  log_ok s ->
  let s1 := addMessage now txt snd ty s in
  let m := mkMessage (message_id now (messageCounterRef s + 1))
             txt snd now ty in
  let timer := mkTimeout (now + 5000) (id m) in
  messages s1 = messages s ++ [m] /\
  timeouts s1 =
    timeouts s ++ (if MessageType_eqb ty status_t then [timer] else []) /\
  forall trace,
    let s2 := run trace s1 in
    (ty <> status_t -> In m (messages s2)) /\
    (ty = status_t ->
     (In m (messages s2) <-> In timer (timeouts s2)) /\
     (Forall (fun ne => fst ne < now + 5000) trace -> In m (messages s2)) /\
     (forall k now',
        nth_error (timeouts s2) k = Some timer -> now + 5000 <= now' ->
        ~ In m (messages (handle now' (ev_timeout k) s2)))).
Proof.
  intros Hok. cbv zeta.
  destruct (addMessage_effect now txt snd ty s) as (Hm & Ht & Hc).
  cbv zeta in Hm, Ht.
  set (m := mkMessage (message_id now (messageCounterRef s + 1))
              txt snd now ty) in *.
  set (timer := mkTimeout (now + 5000) (id m)) in *.
  pose proof (log_ok_addMessage now txt snd ty s Hok) as Hok1.
  split; [exact Hm|]. split; [exact Ht|].
  intros trace. split.
  - intros Hty. apply persists_run; [exact Hok1 | exact Hty |].
    rewrite Hm. apply in_app_iff. right. left. reflexivity.
  - intros ->.
    change (MessageType_eqb status_t status_t) with true in Ht.
    cbv iota in Ht.
    assert (Htr : tracks m timer (addMessage now txt snd status_t s)).
    { split.
      - rewrite Hm, Ht, !in_app_iff. split; intros _; right; left; reflexivity.
      - intros x. rewrite Ht, in_app_iff. intros [Hx | [<- | []]] Etg;
          [|reflexivity].
        exfalso. destruct (ok_targets s Hok x Hx) as (t' & n' & E' & Hn').
        rewrite E' in Etg. subst m. simpl in Etg.
        apply message_id_inj in Etg as [_ Etg]. lia. }
    pose proof (tracks_run trace _ m timer Hok1 eq_refl eq_refl Htr)
      as [Hiff _].
    split; [exact Hiff|]. split.
    + intros Hall. apply Hiff. apply timer_waits; [exact Hall|].
      rewrite Ht. apply in_app_iff. right. left. reflexivity.
    + intros k now' Hk Hdue. unfold handle. rewrite Hk.
      apply N.leb_le in Hdue. simpl due. rewrite Hdue.
      open_cmds. simpl. rewrite filter_In, negb_true_iff.
      intros [_ E].
      assert (Js.eqb (id m) (id m) = true) by (apply Js_eqb_eq; reflexivity).
      simpl in *. congruence.
Qed.

Lemma status_messages_expire_witness :
  let s1 := addMessage 100 (lit "Listening") bot status_t (initial true) in
  let m := mkMessage (message_id 100 (messageCounterRef (initial true) + 1))
             (lit "Listening") bot 100 status_t in
  let s2 := run [(200, ev_change (lit "a")); (4000, ev_mode voice)] s1 in
  log_ok (initial true) /\
  In m (messages s2) /\
  ~ In m (messages (handle 5100 (ev_timeout 0) s2)).
Proof.
  destruct (status_messages_expire 100 (lit "Listening") bot status_t
              (initial true) (log_ok_initial true)) as (_ & _ & H).
  destruct (H [(200, ev_change (lit "a")); (4000, ev_mode voice)])
    as [_ H2].
  destruct (H2 eq_refl) as (_ & Hearly & Hfire).
  split; [apply log_ok_initial|]. split.
  - apply Hearly. repeat constructor.
  - apply (Hfire 0%nat 5100); [reflexivity | lia].
Defined.

(** ** Invariants of the log over whole sessions *)

(** A property of the log, the timers and the counter that [addMessage]
    keeps for the [written] pairs, and that the firing of a pending timer
    keeps, is kept by every turn of the event loop. *)
Section LogInvariant.

Variable P : State -> Prop.

Hypothesis P_frame : forall s s',
  messages s' = messages s -> timeouts s' = timeouts s ->
  messageCounterRef s' = messageCounterRef s -> P s -> P s'.

Hypothesis P_add : forall now txt snd ty s,
  written snd ty = true -> P s -> P (addMessage now txt snd ty s).

Hypothesis P_fire : forall k t s,
  nth_error (timeouts s) k = Some t ->
  P s ->
  P ((putTimeouts (remove_at k (timeouts s)) ;; remove_message (target t)) s).

Ltac keeps_frame :=
  intros s Hs; open_cmds; apply (P_frame s); [reflexivity .. | exact Hs].

Lemma Keeps_skip : Keeps P skip.
Proof. intros s Hs. exact Hs. Qed.

Lemma Keeps_seq (a b : Cmd) : Keeps P a -> Keeps P b -> Keeps P (a ;; b).
Proof. intros Ha Hb s Hs. apply Hb, Ha, Hs. Qed.

Lemma Keeps_if (t : bool) (a b : Cmd) :
  Keeps P a -> Keeps P b -> Keeps P (if t then a else b).
Proof. destruct t; auto. Qed.

Lemma Keeps_when (t : bool) (a : Cmd) : Keeps P a -> Keeps P (when t a).
Proof. intros Ha. apply Keeps_if; [exact Ha | apply Keeps_skip]. Qed.

Lemma Keeps_setInputText v : Keeps P (setInputText v).
Proof. keeps_frame. Qed.
Lemma Keeps_setCurrentMode v : Keeps P (setCurrentMode v).
Proof. keeps_frame. Qed.
Lemma Keeps_setIsProcessing v : Keeps P (setIsProcessing v).
Proof. keeps_frame. Qed.
Lemma Keeps_setIsTyping v : Keeps P (setIsTyping v).
Proof. keeps_frame. Qed.
Lemma Keeps_setSpeechEnabled v : Keeps P (setSpeechEnabled v).
Proof. keeps_frame. Qed.
Lemma Keeps_setIsRecording v : Keeps P (setIsRecording v).
Proof. keeps_frame. Qed.
Lemma Keeps_setIsSpeaking v : Keeps P (setIsSpeaking v).
Proof. keeps_frame. Qed.
Lemma Keeps_setConnectionOnline v : Keeps P (setConnectionOnline v).
Proof. keeps_frame. Qed.
Lemma Keeps_putRecognition v : Keeps P (putRecognition v).
Proof. keeps_frame. Qed.
Lemma Keeps_putSynthesis v : Keeps P (putSynthesis v).
Proof. keeps_frame. Qed.
Lemma Keeps_putRequests v : Keeps P (putRequests v).
Proof. keeps_frame. Qed.
Lemma Keeps_record v : Keeps P (record v).
Proof. keeps_frame. Qed.
Lemma Keeps_synthesis_speak t : Keeps P (synthesis_speak t).
Proof. keeps_frame. Qed.
Lemma Keeps_fetch now c q : Keeps P (fetch now c q).
Proof. keeps_frame. Qed.

Lemma Keeps_cancel_if_speaking : Keeps P cancel_if_speaking.
Proof.
  intros s. unfold cancel_if_speaking.
  destruct (speaking (speechSynthesis s)); revert s; keeps_frame.
Qed.

Lemma Keeps_stop_if_recording c : Keeps P (stop_if_recording c).
Proof.
  intros s. unfold stop_if_recording.
  destruct (recognitionRef s), (c_isRecording c); revert s; keeps_frame.
Qed.

Lemma Keeps_addMessage now txt snd ty :
  written snd ty = true -> Keeps P (addMessage now txt snd ty).
Proof. intros Hw s Hs. apply P_add; assumption. Qed.

#[local] Hint Resolve Keeps_skip Keeps_seq Keeps_if Keeps_when
  Keeps_setInputText Keeps_setCurrentMode Keeps_setIsProcessing
  Keeps_setIsTyping Keeps_setSpeechEnabled Keeps_setIsRecording
  Keeps_setIsSpeaking Keeps_setConnectionOnline Keeps_putRecognition
  Keeps_putSynthesis Keeps_putRequests Keeps_record
  Keeps_synthesis_speak Keeps_fetch Keeps_cancel_if_speaking
  Keeps_stop_if_recording Keeps_addMessage : keeps.

#[local] Hint Extern 1 (written _ _ = true) => reflexivity : keeps.

Lemma Keeps_speak c txt : Keeps P (speak c txt).
Proof. unfold speak. auto with keeps. Qed.

Lemma Keeps_sendMessage c now nav txt :
  Keeps P (sendMessage c now nav txt).
Proof. unfold sendMessage. auto 14 with keeps. Qed.

Lemma Keeps_sendMessage_resume c now o nav :
  Keeps P (sendMessage_resume c now o nav).
Proof.
  pose proof Keeps_speak.
  unfold sendMessage_resume. destruct o; auto 10 with keeps.
Qed.

Lemma Keeps_handleSendText c now nav :
  Keeps P (handleSendText c now nav).
Proof.
  pose proof Keeps_sendMessage. unfold handleSendText. auto 10 with keeps.
Qed.

Lemma Keeps_onresult c now nav t : Keeps P (onresult c now nav t).
Proof.
  pose proof Keeps_sendMessage. unfold onresult. auto 10 with keeps.
Qed.

Lemma Keeps_onerror now e : Keeps P (onerror now e).
Proof. unfold onerror. auto 10 with keeps. Qed.

Lemma Keeps_startRecording c now : Keeps P (startRecording c now).
Proof.
  intros s. unfold startRecording.
  destruct (recognitionRef s) as [r|].
  - destruct (c_isRecording c); [auto|].
    revert s. change (Keeps P
      (cancel_if_speaking ;; setIsRecording true ;;
       putRecognition (Some (mkRecognition (Some c) (started r))) ;;
       (if started r
        then setIsRecording false ;;
             addMessage now
               (lit "Failed to start voice recognition. Please try again.")
               bot error_t
        else putRecognition (Some (mkRecognition (Some c) true)) ;;
             record call_start))).
    auto 12 with keeps.
  - revert s. apply Keeps_addMessage. reflexivity.
Qed.

Lemma Keeps_stopRecording c : Keeps P (stopRecording c).
Proof. unfold stopRecording. auto with keeps. Qed.

Lemma Keeps_toggleRecording c now : Keeps P (toggleRecording c now).
Proof.
  unfold toggleRecording.
  apply Keeps_if; [apply Keeps_stopRecording | apply Keeps_startRecording].
Qed.

Lemma Keeps_toggleSpeaker : Keeps P toggleSpeaker.
Proof.
  intros s. unfold toggleSpeaker. revert s.
  change (forall s, P s -> P ((when (negb (negb (speechEnabled s)))
             cancel_if_speaking ;; setSpeechEnabled (negb (speechEnabled s))) s)).
  intros s. generalize (speechEnabled s). intros b. revert s.
  change (Keeps P (when (negb (negb b)) cancel_if_speaking ;;
                   setSpeechEnabled (negb b))).
  auto with keeps.
Qed.

Lemma Keeps_stopAll c : Keeps P (stopAll c).
Proof. unfold stopAll. auto 10 with keeps. Qed.

Lemma Keeps_switchMode c mode : Keeps P (switchMode c mode).
Proof.
  pose proof Keeps_stopAll. unfold switchMode. auto with keeps.
Qed.

(** Every turn of the event loop keeps the property. *)
Lemma Keeps_handle (now : N) (e : Event) : Keeps P (handle now e).
Proof.
  pose proof Keeps_handleSendText. pose proof Keeps_toggleRecording.
  pose proof Keeps_startRecording. pose proof Keeps_toggleSpeaker.
  pose proof Keeps_stopAll. pose proof Keeps_switchMode.
  pose proof Keeps_onresult. pose proof Keeps_onerror.
  pose proof Keeps_sendMessage_resume.
  intros s Hs. destruct e; unfold handle.
  - apply Keeps_when; auto with keeps.
  - apply Keeps_when; auto with keeps.
  - apply Keeps_when; auto with keeps.
  - apply Keeps_when; auto with keeps.
  - apply Keeps_when; auto with keeps.
  - auto.
  - apply Keeps_stopAll, Hs.
  - apply Keeps_switchMode, Hs.
  - apply Keeps_setConnectionOnline, Hs.
  - apply Keeps_setConnectionOnline, Hs.
  - destruct (recognitionRef s) as [[[h|] [|]]|]; auto.
    apply Keeps_onresult, Hs.
  - destruct (recognitionRef s) as [[[h|] [|]]|]; auto.
    apply Keeps_onerror, Hs.
  - destruct (recognitionRef s) as [[h [|]]|]; auto.
    revert s Hs. unfold onend. fold (Keeps P
      (putRecognition (Some (mkRecognition h false)) ;; setIsRecording false)).
    auto with keeps.
  - destruct (speechSynthesis s) as [[|] [|u q]]; auto.
    revert s Hs. unfold utterance_onstart. fold (Keeps P
      (putSynthesis (mkSynthesis true (u :: q)) ;; setIsSpeaking true)).
    auto with keeps.
  - unfold utterance_onend.
    destruct (speechSynthesis s) as [[|] [|u q]];
      try (apply Keeps_setIsSpeaking, Hs).
    revert s Hs. fold (Keeps P
      (putSynthesis (mkSynthesis false q) ;; setIsSpeaking false)).
    auto with keeps.
  - destruct (nth_error (requests s) i) as [r|]; [|exact Hs].
    apply Keeps_when; auto with keeps.
  - destruct (nth_error (timeouts s) k) as [t|] eqn:Hk; [|exact Hs].
    destruct (due t <=? now); [|exact Hs].
    apply P_fire; assumption.
Qed.

Lemma Keeps_run (trace : list (N * Event)) : Keeps P (run trace).
Proof.
  induction trace as [|[now e] trace IH]; intros s Hs; simpl.
  - exact Hs.
  - apply IH, Keeps_handle, Hs.
Qed.

End LogInvariant.

(** *** The shape of the log in a session *)

Lemma session_ok_initial (supported : bool) : session_ok (initial supported).
Proof.
  constructor; try reflexivity.
  intros [|i] m H; discriminate H.
Qed.

Lemma session_ok_frame (s s' : State) :
  messages s' = messages s -> timeouts s' = timeouts s ->
  messageCounterRef s' = messageCounterRef s -> session_ok s -> session_ok s'.
Proof.
  intros Hm Ht Hc [H1 H2 H3]. constructor; rewrite ?Hm, ?Ht, ?Hc; assumption.
Qed.

Lemma session_ok_add now txt snd ty s :
  written snd ty = true -> session_ok s ->
  session_ok (addMessage now txt snd ty s).
Proof.
  intros Hw [H1 H2 H3].
  destruct (addMessage_effect now txt snd ty s) as (Hm & Ht & Hc).
  cbv zeta in Hm, Ht.
  assert (E : MessageType_eqb ty status_t = false)
    by (destruct snd, ty; (reflexivity || discriminate Hw)).
  rewrite E, app_nil_r in Ht.
  constructor.
  - rewrite Ht. exact H1.
  - rewrite Hc, Hm, H2, length_app. simpl. lia.
  - intros i m. rewrite Hm. intros Hi.
    destruct (PeanoNat.Nat.lt_ge_cases i (List.length (messages s))) as [Hlt | Hge].
    + rewrite nth_error_app1 in Hi by exact Hlt. apply H3, Hi.
    + rewrite nth_error_app2 in Hi by exact Hge.
      destruct (i - List.length (messages s))%nat as [|j] eqn:Ej;
        [|destruct j; discriminate Hi].
      injection Hi as <-. simpl. split; [|exact Hw].
      f_equal. rewrite H2. lia.
Qed.

Lemma session_ok_fire k t s :
  nth_error (timeouts s) k = Some t -> session_ok s ->
  session_ok
    ((putTimeouts (remove_at k (timeouts s)) ;; remove_message (target t)) s).
Proof.
  intros Hk [H1 _ _]. rewrite H1 in Hk. destruct k; discriminate Hk.
Qed.

Lemma session_ok_run (trace : list (N * Event)) (s : State) :
  session_ok s -> session_ok (run trace s).
Proof.
  apply (Keeps_run session_ok session_ok_frame session_ok_add
           session_ok_fire).
Qed.

Lemma session_ok_reachable (s : State) : reachable s -> session_ok s.
Proof.
  intros (supported & trace & ->). apply session_ok_run, session_ok_initial.
Qed.

(** X1. In every state a session can reach no timer is pending and the log
    holds no [status] message: every user message is of kind [text] and
    every [error] message comes from the assistant. *)
Theorem session_messages_kinds (s : State) :
  reachable s ->
  timeouts s = [] /\
  Forall (fun m =>
            type m <> status_t /\
            (sender m = user -> type m = text_t) /\
            (type m = error_t -> sender m = bot))
         (messages s).
Proof.
  intros Hr. destruct (session_ok_reachable s Hr) as [H1 _ H3].
  split; [exact H1|].
  apply Forall_forall. intros m Hin.
  apply In_nth_error in Hin as [i Hi].
  destruct (H3 i m Hi) as [_ Hw].
  destruct (sender m), (type m); try discriminate Hw;
    repeat split; intros; (congruence || reflexivity).
Qed.

Lemma session_messages_kinds_witness :
  let s := run [(1, ev_change (lit "hello")); (2, ev_submit true);
                (3, ev_settled 0 (threw OtherError) false)] (initial true) in
  timeouts s = [] /\
  Forall (fun m =>
            type m <> status_t /\
            (sender m = user -> type m = text_t) /\
            (type m = error_t -> sender m = bot))
         (messages s).
Proof.
  apply session_messages_kinds.
  exists true. eexists. reflexivity.
Defined.

(** X2. In a session the log only grows: whatever the event, the log
    before it is a prefix of the log after it. *)
Theorem session_log_grows (now : N) (e : Event) (s : State) :
  reachable s ->
  exists added, messages (handle now e s) = messages s ++ added.
Proof.
  intros Hr. destruct (session_ok_reachable s Hr) as [H1 _ _].
  destruct (handle_step now e s)
    as [(added & Hm & _) | (k & t & Hk & _)].
  - exists added. exact Hm.
  - rewrite H1 in Hk. destruct k; discriminate Hk.
Qed.

Lemma session_log_grows_witness :
  let s := run [(1, ev_change (lit "hello")); (2, ev_submit true)] (initial true) in
  exists added, messages (handle 3 ev_stop s) = messages s ++ added.
Proof.
  apply session_log_grows. exists true. eexists. reflexivity.
Defined.

(** X3. In a session [messageCounterRef] is the number of messages in the
    log, the id of the message at position [i] is built from a reading of
    the clock and the counter value [i + 1], and so no two messages of the
    log have the same id. *)
Theorem session_ids_unique (s : State) :
  reachable s ->
  messageCounterRef s = N.of_nat (List.length (messages s)) /\
  (forall i m, nth_error (messages s) i = Some m ->
               exists t, id m = message_id t (N.of_nat (S i))) /\
  NoDup (map id (messages s)).
Proof.
  intros Hr. destruct (session_ok_reachable s Hr) as [_ H2 H3].
  split; [exact H2|].
  split; [intros i m Hi; exists (timestamp m); apply (H3 i m Hi)|].
  apply NoDup_nth_error. intros i j Hi E.
  rewrite length_map in Hi.
  rewrite !nth_error_map in E.
  destruct (nth_error (messages s) i) as [m|] eqn:Ei.
  2:{ apply nth_error_None in Ei. lia. }
  destruct (nth_error (messages s) j) as [m'|] eqn:Ej; [|discriminate E].
  simpl in E. injection E as E.
  destruct (H3 i m Ei) as [Em _]. destruct (H3 j m' Ej) as [Em' _].
  rewrite Em, Em' in E. apply message_id_inj in E as [_ E]. lia.
Qed.

Lemma session_ids_unique_witness :
  let s := run [(1, ev_mode voice); (2, ev_mic);
                (3, ev_result (lit "hello") true)] (initial true) in
  messageCounterRef s = N.of_nat (List.length (messages s)) /\
  (forall i m, nth_error (messages s) i = Some m ->
               exists t, id m = message_id t (N.of_nat (S i))) /\
  NoDup (map id (messages s)).
Proof.
  apply session_ids_unique. exists true. eexists. reflexivity.
Defined.

(** ** Invariants of the dispatch over whole sessions *)

Arguments trim : simpl never.
Arguments N.add : simpl never.
Arguments N.leb : simpl never.

Lemma Forall_remove_at {A : Type} (Q : A -> Prop) (k : nat) (l : list A) :
  Forall Q l -> Forall Q (remove_at k l).
Proof.
  intros H. apply Forall_forall. intros x Hx. apply remove_at_In in Hx.
  rewrite Forall_forall in H. auto.
Qed.

(** Past the first test of [sendMessage] the text is not blank. *)
Lemma guard_not_blank (t : jsstring) (b : bool) :
  negb (truthy (trim t)) || b = false -> not_blank t.
Proof.
  intros H. apply orb_false_elim in H as [H _]. apply negb_false_iff, H.
Qed.

Lemma dispatch_ok_initial (supported : bool) : dispatch_ok (initial supported).
Proof. constructor; simpl; constructor. Qed.

Lemma dispatch_ok_handle (now : N) (e : Event) (s : State) :
  dispatch_ok s -> dispatch_ok (handle now e s).
Proof.
  intros [Hf Hc Hr].
  destruct s as [ms it cm ip ity se ir isp co mc rr ss rq tm cl].
  simpl in *. subst ity.
  destruct e; unfold handle; open_callbacks; open_cmds; split_all.
  all: constructor; simpl; try reflexivity;
    repeat (apply Forall_app; split); try assumption;
    try (apply Forall_remove_at; assumption);
    repeat constructor; simpl; eauto using guard_not_blank.
Qed.

Lemma dispatch_ok_reachable (s : State) : reachable s -> dispatch_ok s.
Proof.
  intros (supported & trace & ->).
  generalize (dispatch_ok_initial supported).
  generalize (initial supported).
  induction trace as [|[now e] trace IH]; intros s Hs; simpl.
  - exact Hs.
  - apply IH, dispatch_ok_handle, Hs.
Qed.

(** X4. In every state a session can reach, the typing indicator is on
    exactly when [isProcessing] is: the two flags are raised together by
    [sendMessage] and lowered together by the reply and by [stopAll]. *)
Theorem session_typing_is_processing (s : State) :
  reachable s -> isTyping s = isProcessing s.
Proof. intros Hr. apply (do_flags s (dispatch_ok_reachable s Hr)). Qed.

Lemma session_typing_is_processing_witness :
  let s := run [(1, ev_change (lit "hello")); (2, ev_submit true)] (initial true) in
  isTyping s = isProcessing s.
Proof.
  apply session_typing_is_processing. exists true. eexists. reflexivity.
Defined.

(** X5. A session never sends a blank question: every [fetch] made so far
    and every request in flight carries a question that [trim] does not
    empty. *)
Theorem session_never_sends_blank (s : State) :
  reachable s ->
  (forall q, In (call_fetch q) (calls s) -> truthy (trim q) = true) /\
  (forall r, In r (requests s) -> truthy (trim (question r)) = true).
Proof.
  intros Hr. destruct (dispatch_ok_reachable s Hr) as [_ Hc Hq].
  rewrite Forall_forall in Hc, Hq. split.
  - intros q Hin. apply (Hc (call_fetch q) Hin).
  - intros r Hin. apply (Hq r Hin).
Qed.

Lemma session_never_sends_blank_witness :
  let s := run [(1, ev_mode voice); (2, ev_mic); (3, ev_result [32; 9] true);
                (4, ev_end); (5, ev_mic); (6, ev_result (lit "hi") true)]
               (initial true) in
  (forall q, In (call_fetch q) (calls s) -> truthy (trim q) = true) /\
  (forall r, In r (requests s) -> truthy (trim (question r)) = true).
Proof.
  apply session_never_sends_blank. exists true. eexists. reflexivity.
Defined.

(** ** A browser without speech recognition *)

Lemma unsupported_handle (now : N) (e : Event) (s : State) :
  unsupported s -> unsupported (handle now e s).
Proof.
  intros [Hr Hf [Hc1 Hc2]].
  destruct s as [ms it cm ip ity se ir isp co mc rr ss rq tm cl].
  simpl in *. subst rr ir.
  destruct e; unfold handle; open_callbacks; open_cmds; split_all.
  all: constructor; simpl; try reflexivity;
    split; rewrite ?in_app_iff; simpl; intuition discriminate.
Qed.

(** X6. When the browser has no [SpeechRecognition], whatever the session
    does, [isRecording] stays false and neither [start()] nor [stop()] is
    ever called; a press on the microphone button only logs the
    assistant's error message saying so. *)
Theorem unsupported_never_records (trace : list (N * Event)) (now : N) :
  let s := run trace (initial false) in
  isRecording s = false /\
  ~ In call_start (calls s) /\ ~ In call_stop (calls s) /\
  (currentMode s <> voice_cont ->
   messages (handle now ev_mic s) =
     messages s ++
     [mkMessage (message_id now (messageCounterRef s + 1))
        (lit "Voice recognition not supported in this browser")
        bot now error_t]).
Proof.
  cbv zeta. set (s := run trace (initial false)).
  assert (H : unsupported s).
  { subst s.
    assert (H0 : unsupported (initial false))
      by (constructor; simpl; auto).
    revert H0. generalize (initial false).
    induction trace as [|[n e] trace IH]; intros s Hs; simpl.
    - exact Hs.
    - apply IH, unsupported_handle, Hs. }
  destruct H as [Hr Hf [Hc1 Hc2]].
  split; [exact Hf|]. split; [exact Hc1|]. split; [exact Hc2|].
  intros Hm. unfold handle, when.
  assert (E : negb (ChatMode_eqb (currentMode s) voice_cont) = true)
    by (destruct (currentMode s); (reflexivity || congruence)).
  rewrite E. unfold toggleRecording.
  change (c_isRecording (render s)) with (isRecording s). rewrite Hf.
  unfold startRecording. rewrite Hr.
  apply (proj1 (addMessage_effect now _ bot error_t s)).
Qed.

Lemma unsupported_never_records_witness :
  let s := run [(1, ev_mode voice)] (initial false) in
  messages (handle 2 ev_mic s) =
    messages s ++
    [mkMessage (message_id 2 (messageCounterRef s + 1))
       (lit "Voice recognition not supported in this browser")
       bot 2 error_t].
Proof.
  destruct (unsupported_never_records [(1, ev_mode voice)] 2)
    as (_ & _ & _ & H).
  apply H. discriminate.
Defined.

(** ** Starting and ending a capture *)

(** X7. A [startRecording] that goes through (recognition available and
    idle, not recording in the closure) silences the synthesizer before it
    listens: afterwards [isRecording] is true, the synthesizer is not
    speaking, the handlers carry the closure of the call, the log is
    untouched, and the only browser calls are [cancel()], made exactly
    when the synthesizer was speaking, followed by [start()]. *)
Theorem startRecording_starts
    (c : Closure) (now : N) (s : State) (r : Recognition) :
  recognitionRef s = Some r -> started r = false ->
  c_isRecording c = false ->
  let s' := startRecording c now s in
  isRecording s' = true /\
  speaking (speechSynthesis s') = false /\
  recognitionRef s' = Some (mkRecognition (Some c) true) /\
  messages s' = messages s /\ requests s' = requests s /\
  calls s' =
    calls s ++
    (if speaking (speechSynthesis s) then [call_cancel] else []) ++
    [call_start].
Proof.
  intros Hr Hs Hc. cbv zeta. unfold startRecording. rewrite Hr, Hc, Hs.
  open_cmds. destruct (speaking (speechSynthesis s)) eqn:E; simpl;
    rewrite <- ?app_assoc; repeat split; assumption.
Qed.

Lemma startRecording_starts_witness :
  let s := initial true in
  let c := render s in
  let s' := startRecording c 1 s in
  isRecording s' = true /\
  speaking (speechSynthesis s') = false /\
  recognitionRef s' = Some (mkRecognition (Some c) true) /\
  messages s' = messages s /\ requests s' = requests s /\
  calls s' =
    calls s ++
    (if speaking (speechSynthesis s) then [call_cancel] else []) ++
    [call_start].
Proof.
  apply (startRecording_starts (render (initial true)) 1 (initial true)
           (mkRecognition None false)); reflexivity.
Defined.

(** X8. When [start()] throws because the recognition object is still
    started, [startRecording] ends with [isRecording] false, logs exactly
    one error message from the assistant and records no [start()]; the
    handlers of the capture that is still running have nevertheless been
    replaced by those of this call. *)
Theorem startRecording_start_throws
    (c : Closure) (now : N) (s : State) (r : Recognition) :
  recognitionRef s = Some r -> started r = true ->
  c_isRecording c = false ->
  let s' := startRecording c now s in
  isRecording s' = false /\
  recognitionRef s' = Some (mkRecognition (Some c) true) /\
  messages s' =
    messages s ++
    [mkMessage (message_id now (messageCounterRef s + 1))
       (lit "Failed to start voice recognition. Please try again.")
       bot now error_t] /\
  requests s' = requests s /\
  calls s' =
    calls s ++ (if speaking (speechSynthesis s) then [call_cancel] else []).
Proof.
  intros Hr Hs Hc. cbv zeta. unfold startRecording. rewrite Hr, Hc, Hs.
  unfold addMessage. open_cmds.
  destruct (speaking (speechSynthesis s)) eqn:E; simpl;
    rewrite ?app_nil_r; repeat split.
Qed.

Lemma startRecording_start_throws_witness :
  let s := run [(1, ev_mode voice); (2, ev_mic); (3, ev_result [] true)]
               (initial true) in
  let s' := handle 4 ev_mic s in
  isRecording s = false /\ isRecording s' = false /\
  List.length (messages s') = S (List.length (messages s)) /\
  calls s' = calls s.
Proof.
  intros s s'.
  destruct (startRecording_start_throws (render s) 4 s
              (mkRecognition
                 (Some (mkClosure [] voice false true false true)) true)
              eq_refl eq_refl eq_refl) as (H1 & _ & H3 & _ & H5).
  split; [reflexivity|]. split; [exact H1|]. split.
  - change (messages s') with (messages (startRecording (render s) 4 s)).
    rewrite H3, length_app. simpl. lia.
  - change (calls s') with (calls (startRecording (render s) 4 s)).
    rewrite H5. apply app_nil_r.
Defined.

(** X9. An error event of the recognition always lowers [isRecording] and
    logs exactly one error message from the assistant, without any browser
    call; the text starts with the fixed prefix and ends with the advice
    for the codes [no-speech], [not-allowed] and [network], and with the
    general advice for every other code. *)
Theorem recognition_error_reported
    (s : State) (h : Closure) (now : N) (error : jsstring) :
  recognitionRef s = Some (mkRecognition (Some h) true) ->
  let s' := handle now (ev_error error) s in
  isRecording s' = false /\
  requests s' = requests s /\ calls s' = calls s /\
  exists m advice,
    messages s' = messages s ++ [m] /\
    sender m = bot /\ type m = error_t /\
    text m = lit "Voice recognition error. " ++ advice /\
    (error = lit "no-speech" ->
     advice = lit "No speech detected. Please try again.") /\
    (error = lit "not-allowed" ->
     advice = lit "Microphone access denied. Please allow microphone access.") /\
    (error = lit "network" ->
     advice = lit "Network error. Check your internet connection.") /\
    (error <> lit "no-speech" -> error <> lit "not-allowed" ->
     error <> lit "network" -> advice = lit "Please try again.").
Proof.
  intros Hr. cbv zeta. unfold handle. rewrite Hr.
  unfold onerror, addMessage. open_cmds. simpl.
  repeat split. eexists. eexists. split; [reflexivity|].
  split; [reflexivity|]. split; [reflexivity|]. split; [reflexivity|].
  destruct (Js.eqb error (lit "no-speech")) eqn:E1;
    [apply Js_eqb_eq in E1; subst error;
     repeat split; intros; (reflexivity || discriminate || congruence)|].
  destruct (Js.eqb error (lit "not-allowed")) eqn:E2;
    [apply Js_eqb_eq in E2; subst error;
     repeat split; intros; (reflexivity || discriminate || congruence)|].
  destruct (Js.eqb error (lit "network")) eqn:E3;
    [apply Js_eqb_eq in E3; subst error;
     repeat split; intros; (reflexivity || discriminate || congruence)|].
  repeat split; intros; try reflexivity; subst error;
    (rewrite (proj2 (Js_eqb_eq _ _) eq_refl) in *; discriminate).
Qed.

Lemma recognition_error_reported_witness :
  let s := run [(1, ev_mic)] (initial true) in
  let s' := handle 2 (ev_error (lit "aborted")) s in
  isRecording s' = false /\ calls s' = calls s /\
  exists m advice,
    messages s' = messages s ++ [m] /\
    text m = lit "Voice recognition error. " ++ advice /\
    advice = lit "Please try again.".
Proof.
  intros s s'.
  destruct (recognition_error_reported s
              (mkClosure [] chat false true false true) 2 (lit "aborted")
              eq_refl)
    as (H1 & _ & H3 & m & advice & Hm & _ & _ & Ht & _ & _ & _ & Hd).
  split; [exact H1|]. split; [exact H3|].
  exists m, advice. split; [exact Hm|]. split; [exact Ht|].
  apply Hd; discriminate.
Defined.

(** X10. Each of the three events that end a capture (a transcript, an
    error, the end of the recognition) leaves [isRecording] false. *)
Theorem capture_events_lower_isRecording
    (s : State) (h : Closure) (now : N) (e : Event) :
  recognitionRef s = Some (mkRecognition (Some h) true) ->
  (exists t nav, e = ev_result t nav) \/ (exists code, e = ev_error code) \/
  e = ev_end ->
  isRecording (handle now e s) = false.
Proof.
  intros Hr [(t & nav & ->) | [[code ->] | ->]]; unfold handle; rewrite Hr.
  - reflexivity.
  - unfold onerror, addMessage. open_cmds. reflexivity.
  - reflexivity.
Qed.

Lemma capture_events_lower_isRecording_witness :
  let s := run [(1, ev_mode voice); (2, ev_mic)] (initial true) in
  isRecording s = true /\
  isRecording (handle 3 (ev_result (lit "hello") true) s) = false.
Proof.
  intros s. split; [reflexivity|].
  apply (capture_events_lower_isRecording s
           (mkClosure [] voice false true false true) 3
           (ev_result (lit "hello") true) eq_refl).
  left. eexists. eexists. reflexivity.
Defined.

(** ** The speaker switch and the stop button *)

(** X11. [toggleSpeaker] flips [speechEnabled] and never touches the log
    or the requests. Turning speech off leaves the synthesizer not
    speaking ([cancel()] is called exactly when it was speaking); turning
    it on makes no browser call; toggling twice gives back the setting. *)
Theorem toggleSpeaker_flips (s : State) :
  let s' := toggleSpeaker s in
  speechEnabled s' = negb (speechEnabled s) /\
  messages s' = messages s /\ requests s' = requests s /\
  (speechEnabled s = true ->
   speaking (speechSynthesis s') = false /\
   calls s' =
     calls s ++ (if speaking (speechSynthesis s) then [call_cancel] else [])) /\
  (speechEnabled s = false ->
   speechSynthesis s' = speechSynthesis s /\ calls s' = calls s) /\
  speechEnabled (toggleSpeaker s') = speechEnabled s.
Proof.
  cbv zeta. unfold toggleSpeaker. open_cmds.
  destruct (speechEnabled s) eqn:Ee; simpl;
    destruct (speaking (speechSynthesis s)) eqn:Es; simpl;
    rewrite ?Ee, ?Es; simpl;
    repeat split; intros; try discriminate;
    rewrite ?app_nil_r; try reflexivity; try assumption;
    destruct (speaking _); reflexivity.
Qed.

Lemma toggleSpeaker_flips_witness :
  let s := run [(1, ev_change (lit "q")); (2, ev_submit true);
                (3, ev_settled 0 (answered (Some (lit "one"))) true);
                (4, ev_utterance_start)] (initial true) in
  let s' := toggleSpeaker s in
  speaking (speechSynthesis s) = true /\
  speaking (speechSynthesis s') = false /\
  calls s' = calls s ++ [call_cancel].
Proof.
  intros s s'.
  destruct (toggleSpeaker_flips s) as (_ & _ & _ & H & _).
  destruct (H eq_refl) as [H1 H2].
  split; [reflexivity|]. split; [exact H1 | exact H2].
Defined.

(** X12. [stopAll] changes neither the log, the input buffer, the mode,
    the speech setting, the connection flag nor the requests in flight. It
    leaves the synthesizer not speaking, and its browser calls are
    [stop()], made exactly when recognition is available and the closure
    is recording, then [cancel()], made exactly when the synthesizer was
    speaking. *)
Theorem stopAll_frame (c : Closure) (s : State) :
  let s' := stopAll c s in
  messages s' = messages s /\ inputText s' = inputText s /\
  currentMode s' = currentMode s /\ speechEnabled s' = speechEnabled s /\
  connectionOnline s' = connectionOnline s /\
  requests s' = requests s /\ timeouts s' = timeouts s /\
  speaking (speechSynthesis s') = false /\
  calls s' =
    calls s ++
    (match recognitionRef s with
     | Some _ => if c_isRecording c then [call_stop] else []
     | None => []
     end) ++
    (if speaking (speechSynthesis s) then [call_cancel] else []).
Proof.
  cbv zeta. unfold stopAll. open_cmds.
  destruct (recognitionRef s), (c_isRecording c); simpl;
    destruct (speaking (speechSynthesis s)) eqn:E; simpl;
    rewrite <- ?app_assoc, ?app_nil_r; repeat split; assumption.
Qed.

(** X13. Pressing stop, or choosing a mode, a second time right after the
    first changes nothing more: the second turn leaves the state exactly
    as the first one left it. *)
Theorem stop_and_mode_idempotent
    (now now' : N) (mode : ChatMode) (s : State) :
  handle now' ev_stop (handle now ev_stop s) = handle now ev_stop s /\
  handle now' (ev_mode mode) (handle now (ev_mode mode) s)
  = handle now (ev_mode mode) s.
Proof.
  destruct s as [ms it cm ip ity se ir isp co mc rr ss rq tm cl].
  destruct rr as [r|], ss as [[|] q], ir; split; reflexivity.
Qed.

(** X14. Two presses on the microphone button, the first in a state where
    recognition is available and idle and nothing is being recorded, start
    the capture and then stop it: [isRecording] is false again, the log is
    untouched, and the browser calls are [start()] then [stop()], preceded
    by a [cancel()] exactly when the synthesizer was speaking. *)
Theorem mic_twice (now now' : N) (s : State) (r : Recognition) :
  recognitionRef s = Some r -> started r = false ->
  isRecording s = false -> currentMode s <> voice_cont ->
  let s1 := handle now ev_mic s in
  let s2 := handle now' ev_mic s1 in
  isRecording s1 = true /\ isRecording s2 = false /\
  messages s2 = messages s /\
  calls s2 =
    calls s ++
    (if speaking (speechSynthesis s) then [call_cancel] else []) ++
    [call_start; call_stop].
Proof.
  intros Hr Hs Hi Hm. cbv zeta.
  destruct s as [ms it cm ip ity se ir isp co mc rr ss rq tm cl].
  simpl in *. subst rr ir. destruct r as [h st]. simpl in Hs. subst st.
  unfold handle. open_callbacks. open_cmds. simpl.
  destruct cm; try congruence; simpl;
    destruct (speaking ss); simpl; rewrite <- ?app_assoc;
    repeat split.
Qed.

Lemma mic_twice_witness :
  let s := initial true in
  let s1 := handle 1 ev_mic s in
  let s2 := handle 2 ev_mic s1 in
  isRecording s1 = true /\ isRecording s2 = false /\
  messages s2 = messages s /\
  calls s2 =
    calls s ++
    (if speaking (speechSynthesis s) then [call_cancel] else []) ++
    [call_start; call_stop].
Proof.
  apply (mic_twice 1 2 (initial true) (mkRecognition None false));
    (reflexivity || discriminate).
Defined.

(** ** Sending and the replies *)

(** X15. Submitting the text box in chat mode: a blank input changes
    nothing at all (the input is not even cleared); an input that is not
    blank, while idle and online, is handled trimmed, the log gains one
    user message with the trimmed text and the input buffer is emptied.
    If [encodeURIComponent] accepts the trimmed text, one [fetch] of it is
    made with its abort timer 15000 ms ahead and both flags are raised;
    if it throws (a lone surrogate), no [fetch] is made, the assistant's
    error message follows in the log and both flags are false again in the
    same turn. *)
Theorem submit_sends_trimmed (now : N) (nav : bool) (s : State) :
  currentMode s = chat ->
  let s' := handle now (ev_submit nav) s in
  let q := trim (inputText s) in
  let m := mkMessage (message_id now (messageCounterRef s + 1))
             q user now text_t in
  (truthy q = false -> s' = s) /\
  (truthy q = true -> isProcessing s = false -> connectionOnline s = true ->
   inputText s' = [] /\
   (isWellFormed q = true ->
    messages s' = messages s ++ [m] /\
    requests s' = requests s ++ [mkRequest q (now + 15000) (render s)] /\
    calls s' = calls s ++ [call_fetch q] /\
    isProcessing s' = true /\ isTyping s' = true) /\
   (isWellFormed q = false ->
    (exists e, messages s' = messages s ++ [m; e] /\
               sender e = bot /\ type e = error_t /\
               text e =
                 cross ++
                 (if nav
                  then lit "I'm having trouble connecting right now. "
                  else lit "You appear to be offline. Please check your internet connection.")) /\
    requests s' = requests s /\ calls s' = calls s /\
    isProcessing s' = false /\ isTyping s' = false)).
Proof.
  intros Hm. cbv zeta. unfold handle, when. rewrite Hm. simpl ChatMode_eqb.
  cbv iota. unfold handleSendText.
  change (c_inputText (render s)) with (inputText s). split.
  - intros Hq. rewrite Hq. reflexivity.
  - intros Hq Hp Ho. rewrite Hq. unfold sendMessage.
    rewrite trim_idempotent, Hq.
    change (c_isProcessing (render s)) with (isProcessing s).
    change (c_connectionOnline (render s)) with (connectionOnline s).
    rewrite Hp, Ho. unfold addMessage. open_cmds.
    cbn -[N.add trim isWellFormed lit].
    split; [reflexivity|]. split; intros Hw; rewrite Hw.
    + cbn -[N.add trim lit]. repeat split.
    + cbn -[N.add trim lit]. split; [|repeat split].
      eexists. split; [rewrite <- app_assoc; reflexivity|].
      destruct nav; repeat split.
Qed.

Lemma submit_sends_trimmed_witness :
  let s := run [(1, ev_change (lit "  hi "))] (initial true) in
  let s' := handle 2 (ev_submit true) s in
  calls s' = calls s ++ [call_fetch (trim (inputText s))] /\
  trim (inputText s) = lit "hi" /\ inputText s' = [].
Proof.
  intros s s'.
  destruct (submit_sends_trimmed 2 true s eq_refl) as [_ H].
  destruct (H eq_refl eq_refl eq_refl) as (H1 & H2 & _).
  destruct (H2 eq_refl) as (_ & _ & H3 & _).
  split; [exact H3|]. split; [reflexivity | exact H1].
Defined.

(** X16. Every reply to a request in flight, an answer or a failure, logs
    exactly one message from the assistant, whose text is never empty (a
    missing or empty answer is replaced by the fixed fallback text), takes
    the request out of those in flight and lowers [isProcessing] and
    [isTyping]; the input buffer and the mode are untouched. *)
Theorem reply_logged_once
    (s : State) (i : nat) (r : Request) (now : N) (o : Outcome)
    (navigatorOnLine : bool) :
  nth_error (requests s) i = Some r ->
  (o = threw AbortError -> deadline r <= now) ->
  let s' := handle now (ev_settled i o navigatorOnLine) s in
  messages s' =
    messages s ++
    [mkMessage (message_id now (messageCounterRef s + 1))
       (reply_text o navigatorOnLine) bot now
       (match o with answered _ => text_t | threw _ => error_t end)] /\
  truthy (reply_text o navigatorOnLine) = true /\
  requests s' = remove_at i (requests s) /\
  isProcessing s' = false /\ isTyping s' = false /\
  inputText s' = inputText s /\ currentMode s' = currentMode s.
Proof.
  intros Hr Hd. cbv zeta. unfold handle. rewrite Hr.
  assert (Hp : match o with
               | threw AbortError => deadline r <=? now
               | _ => true
               end = true).
  { destruct o as [a | [|]]; try reflexivity. apply N.leb_le; auto. }
  rewrite Hp. unfold when.
  assert (Ht : truthy (reply_text o navigatorOnLine) = true).
  { destruct o as [[[|x a]|] | [|]]; reflexivity. }
  destruct o as [a | e].
  - unfold sendMessage_resume, speak, addMessage. open_cmds.
    simpl reply_text in *. rewrite Ht.
    destruct (c_speechEnabled (awaiting r)); simpl;
      try destruct (speaking (speechSynthesis s)); simpl;
      repeat split.
  - unfold sendMessage_resume, addMessage. open_cmds.
    destruct e, navigatorOnLine; simpl; repeat split.
Qed.

Lemma reply_logged_once_witness :
  let s := run [(1, ev_change (lit "hello")); (2, ev_submit true)] (initial true) in
  let s' := handle 3 (ev_settled 0 (answered (Some [])) true) s in
  messages s' =
    messages s ++
    [mkMessage (message_id 3 (messageCounterRef s + 1))
       (lit "I didn't receive a proper response.") bot 3 text_t] /\
  isProcessing s' = false.
Proof.
  intros s s'.
  destruct (reply_logged_once s 0
              (mkRequest (lit "hello") 15002
                 (mkClosure (lit "hello") chat false true false true))
              3 (answered (Some [])) true eq_refl)
    as (H1 & _ & _ & H4 & _).
  - discriminate.
  - split; [exact H1 | exact H4].
Defined.

(** X17. Whether an answer is spoken is decided by the speech setting of
    the render that sent the question, not by the setting when the answer
    arrives: if it was on, the answer is spoken ([cancel()] first, exactly
    when the synthesizer is speaking) even if the speaker has been turned
    off since; if it was off, the synthesizer is not called even if the
    speaker has been turned on since. *)
Theorem answer_spoken_as_set_at_dispatch
    (s : State) (i : nat) (r : Request) (now : N)
    (answer : option jsstring) (navigatorOnLine : bool) :
  nth_error (requests s) i = Some r ->
  let s' := handle now (ev_settled i (answered answer) navigatorOnLine) s in
  let answerText := orElse answer (lit "I didn't receive a proper response.") in
  if c_speechEnabled (awaiting r) then
    calls s' =
      calls s ++
      (if speaking (speechSynthesis s) then [call_cancel] else []) ++
      [call_speak answerText] /\
    queue (speechSynthesis s') =
      (if speaking (speechSynthesis s) then []
       else queue (speechSynthesis s)) ++ [answerText]
  else
    calls s' = calls s /\ speechSynthesis s' = speechSynthesis s.
Proof.
  intros Hr. cbv zeta. unfold handle. rewrite Hr. unfold when.
  assert (Ht : truthy (orElse answer (lit "I didn't receive a proper response."))
               = true).
  { destruct answer as [[|x a]|]; reflexivity. }
  unfold sendMessage_resume, speak, addMessage. open_cmds. rewrite Ht.
  destruct (c_speechEnabled (awaiting r)); simpl;
    try destruct (speaking (speechSynthesis s)); simpl;
    rewrite <- ?app_assoc; repeat split.
Qed.

Lemma answer_spoken_as_set_at_dispatch_witness :
  let s := run [(1, ev_change (lit "hello")); (2, ev_submit true);
                (3, ev_speaker)] (initial true) in
  let s' := handle 4 (ev_settled 0 (answered (Some (lit "hi"))) true) s in
  speechEnabled s = false /\
  calls s' = calls s ++ [] ++ [call_speak (lit "hi")].
Proof.
  intros s s'.
  pose proof (answer_spoken_as_set_at_dispatch s 0
                (mkRequest (lit "hello") 15002
                   (mkClosure (lit "hello") chat false true false true))
                4 (Some (lit "hi")) true eq_refl) as H.
  cbv zeta in H. simpl c_speechEnabled in H. cbv iota in H.
  destruct H as [H _].
  split; [reflexivity | exact H].
Defined.

(** ** What the events leave alone *)

(** X18. The mode changes only by a mode switch, the speech setting only
    by the speaker switch, and the connection flag only by the browser's
    online and offline events: every other event leaves them as they
    were. *)
Theorem settings_change_only_by_their_event
    (now : N) (e : Event) (s : State) :
  let s' := handle now e s in
  ((forall mode, e <> ev_mode mode) -> currentMode s' = currentMode s) /\
  (e <> ev_speaker -> speechEnabled s' = speechEnabled s) /\
  (e <> ev_online -> e <> ev_offline ->
   connectionOnline s' = connectionOnline s).
Proof.
  cbv zeta.
  destruct s as [ms it cm ip ity se ir isp co mc rr ss rq tm cl].
  destruct e; unfold handle; open_callbacks; open_cmds; split_all;
    repeat split; intros; try reflexivity; try congruence.
  all: match goal with
       | H : forall mode, _ <> ev_mode mode |- _ =>
           exfalso; apply (H _ eq_refl)
       end.
Qed.

Lemma settings_change_only_by_their_event_witness :
  let s := run [(1, ev_mode voice); (2, ev_mic)] (initial true) in
  let s' := handle 3 (ev_result (lit "hello") true) s in
  currentMode s' = voice /\ speechEnabled s' = true /\
  connectionOnline s' = true.
Proof.
  intros s s'.
  destruct (settings_change_only_by_their_event 3 (ev_result (lit "hello") true) s)
    as (H1 & H2 & H3).
  split; [apply H1; discriminate|].
  split; [apply H2; discriminate | apply H3; discriminate].
Defined.

(** X19. The keyboard shortcuts for capture: Ctrl+M does in chat mode what
    the microphone button does and nothing in the other modes; Space does
    nothing outside voice mode and, where recognition is available, it
    never stops a capture: while [isRecording] is true it changes
    nothing. *)
Theorem capture_shortcuts (now : N) (s : State) :
  (currentMode s = chat -> handle now ev_ctrl_m s = handle now ev_mic s) /\
  (currentMode s <> chat -> handle now ev_ctrl_m s = s) /\
  (currentMode s <> voice -> handle now ev_space s = s) /\
  (recognitionRef s <> None -> isRecording s = true ->
   handle now ev_space s = s).
Proof.
  unfold handle, when, startRecording.
  change (c_isRecording (render s)) with (isRecording s).
  repeat split.
  - intros ->. reflexivity.
  - intros H. destruct (currentMode s); (congruence || reflexivity).
  - intros H. destruct (currentMode s); (congruence || reflexivity).
  - intros Hr Hi. rewrite Hi.
    destruct (ChatMode_eqb (currentMode s) voice); [|reflexivity].
    destruct (recognitionRef s); [reflexivity | congruence].
Qed.

Lemma capture_shortcuts_witness :
  let s := run [(1, ev_mode voice); (2, ev_space)] (initial true) in
  isRecording s = true /\ handle 3 ev_space s = s.
Proof.
  intros s. split; [reflexivity|].
  destruct (capture_shortcuts 3 s) as (_ & _ & _ & H).
  apply H; [discriminate | reflexivity].
Defined.
